(** * rspt2spectra: the RSPt file readers [hyb], [self_energy] and [pdos]

    A shallow embedding of [readfile.py] and the properties of its three
    readers.

    Modelling conventions.
    - Floating-point numbers are idealised as exact rationals ([Qc], the
      canonical rationals, which have Leibniz equality and compute);
      rounding, infinities and NaN are outside the model.  Complex numbers
      are pairs of rationals with the usual arithmetic.
    - The unit constant [eV] is imported by the source from the module of
      constants; its value plays no part, and it is a parameter of every
      reader.
    - A numpy array is a shape together with an index function.  Every
      integer subscript of the source is a checked access that raises
      [IndexError] out of range, slices clamp as numpy's do, and binary
      operations broadcast as numpy's do.
    - [np.loadtxt] is a library function: a file is given by the rows of
      numbers it holds, and [loadtxt] performs the shape check and the
      squeeze of the library.  [np.complex] and [np.int] are the aliases of
      [complex] and [int] they were in the numpy the source was written for.
    - The mask is searched by a shell command into which the name of the
      log is pasted without quotes.  The pipeline is modelled stage by
      stage for a name that is a plain word; for any other name the
      outcome of the command is a parameter, [shell].
    - Exceptions and [sys.exit] are values of an error monad.
    - Orbital counts are natural numbers. *)

From Stdlib Require Import List String Ascii Bool Arith ZArith QArith Qcanon Lia.
Import ListNotations.

Local Open Scope nat_scope.

(** ** Exceptions *)

Module Py.

Inductive exn : Type :=
| SystemExit (msg : string)   (* sys.exit(msg) *)
| OSError                     (* a file that cannot be opened *)
| ValueError                  (* bad literal, bad shape, bad file argument *)
| IndexError                  (* subscript out of range, too many indices *)
| OverflowError               (* integer literal beyond the machine integer *)
| AttributeError              (* attribute that the module does not have *)
| TypeError                   (* operands of the wrong type *)
| CalledProcessError.         (* subprocess with a non-zero exit status *)

Inductive result (A : Type) : Type :=
| Ok (a : A)
| Raise (e : exn).

Arguments Ok {A} a.
Arguments Raise {A} e.

Definition bind {A B : Type} (c : result A) (k : A -> result B) : result B :=
  match c with
  | Ok a => k a
  | Raise e => Raise e
  end.

(** [try: c except e: h] *)
Definition try_except {A : Type} (c : result A) (caught : exn -> bool)
    (handler : result A) : result A :=
  match c with
  | Ok a => Ok a
  | Raise e => if caught e then handler else Raise e
  end.

Definition returns {A : Type} (c : result A) : Prop := exists a, c = Ok a.

(** [for i in l: s = body i s], stopping at the first exception. *)
Fixpoint for_each {I S : Type} (l : list I) (body : I -> S -> result S) (s : S)
    : result S :=
  match l with
  | [] => Ok s
  | i :: l' => bind (body i s) (for_each l' body)
  end.

(** [range(n)] *)
Definition range (n : nat) : list nat := seq 0 n.

End Py.

Export Py.

Declare Scope py_scope.
Delimit Scope py_scope with py.
Notation "x <- c ;; k" := (bind c (fun x => k))
  (at level 61, c at next level, right associativity) : py_scope.
Notation "' pat <- c ;; k" := (bind c (fun x => match x with pat => k end))
  (at level 61, pat pattern, c at next level, right associativity) : py_scope.
Local Open Scope py_scope.

(** ** Complex numbers over the rationals *)

Module Cplx.

Record complex : Type := mkC { Re : Qc; Im : Qc }.

Definition RtoC (x : Qc) : complex := mkC x 0%Qc.

(** The literal [1j]. *)
Definition Ci : complex := mkC 0%Qc 1%Qc.

Definition C0 : complex := mkC 0%Qc 0%Qc.

Definition Cadd (a b : complex) : complex :=
  mkC (Re a + Re b)%Qc (Im a + Im b)%Qc.

Definition Cmul (a b : complex) : complex :=
  mkC (Re a * Re b - Im a * Im b)%Qc (Re a * Im b + Im a * Re b)%Qc.

(** A real scalar times a complex number, the scalar promoted first. *)
Definition Cscale (k : Qc) (a : complex) : complex := Cmul (RtoC k) a.

End Cplx.

Export Cplx.

(** ** Arrays: a shape and an index function *)

Module Np.

Record arr1 (A : Type) : Type := Arr1 { len : nat; at1 : nat -> A }.
Record arr2 (A : Type) : Type :=
  Arr2 { nrows : nat; ncols : nat; at2 : nat -> nat -> A }.
Record arr3 (A : Type) : Type :=
  Arr3 { dim0 : nat; dim1 : nat; dim2 : nat; at3 : nat -> nat -> nat -> A }.

Arguments Arr1 {A} len at1.
Arguments len {A} a.
Arguments at1 {A} a i.
Arguments Arr2 {A} nrows ncols at2.
Arguments nrows {A} a.
Arguments ncols {A} a.
Arguments at2 {A} a i j.
Arguments Arr3 {A} dim0 dim1 dim2 at3.
Arguments dim0 {A} a.
Arguments dim1 {A} a.
Arguments dim2 {A} a.
Arguments at3 {A} a i j m.

(** The entries of an array, listed in index order. *)
Definition to_list1 {A} (a : arr1 A) : list A := map (at1 a) (seq 0 (len a)).
Definition to_list3 {A} (a : arr3 A) : list (list (list A)) :=
  map (fun i => map (fun j => map (at3 a i j) (seq 0 (dim2 a)))
                    (seq 0 (dim1 a))) (seq 0 (dim0 a)).

(** Elementwise operation with a scalar: [k * a], [a / k], [a == k]. *)
Definition map1 {A B} (f : A -> B) (a : arr1 A) : arr1 B :=
  Arr1 (len a) (fun i => f (at1 a i)).
Definition map2 {A B} (f : A -> B) (a : arr2 A) : arr2 B :=
  Arr2 (nrows a) (ncols a) (fun i j => f (at2 a i j)).

(** [np.transpose(a)], [a.T] *)
Definition transpose {A} (a : arr2 A) : arr2 A :=
  Arr2 (ncols a) (nrows a) (fun i j => at2 a j i).

(** [a[:, lo:hi]]: both bounds are clamped to the number of columns. *)
Definition slice_cols {A} (a : arr2 A) (lo hi : nat) : arr2 A :=
  let start := Nat.min lo (ncols a) in
  let stop := Nat.min hi (ncols a) in
  Arr2 (nrows a) (stop - start) (fun i j => at2 a i (start + j)).

(** [a[:, lo:]] *)
Definition slice_cols_from {A} (a : arr2 A) (lo : nat) : arr2 A :=
  slice_cols a lo (ncols a).

(** [a[:r, :c]] *)
Definition slice_block {A} (a : arr2 A) (r c : nat) : arr2 A :=
  Arr2 (Nat.min r (nrows a)) (Nat.min c (ncols a)) (at2 a).

(** [a[:, n]] *)
Definition col {A} (a : arr2 A) (n : nat) : result (arr1 A) :=
  if n <? ncols a then Ok (Arr1 (nrows a) (fun m => at2 a m n))
  else Raise IndexError.

(** [a[i, :]] *)
Definition row {A} (a : arr2 A) (i : nat) : result (arr1 A) :=
  if i <? nrows a then Ok (Arr1 (ncols a) (fun m => at2 a i m))
  else Raise IndexError.

(** [a[i, j]] *)
Definition item2 {A} (a : arr2 A) (i j : nat) : result A :=
  if (i <? nrows a) && (j <? ncols a) then Ok (at2 a i j)
  else Raise IndexError.

(** [h[i, j, :]] *)
Definition fibre {A} (h : arr3 A) (i j : nat) : result (arr1 A) :=
  if (i <? dim0 h) && (j <? dim1 h)
  then Ok (Arr1 (dim2 h) (fun m => at3 h i j m))
  else Raise IndexError.

(** Broadcasting of one axis: equal lengths, or one of them is 1. *)
Definition bcast (m n : nat) : option nat :=
  if m =? 1 then Some n
  else if n =? 1 then Some m
  else if m =? n then Some m
  else None.

(** The index read along an axis of length [n] that has been broadcast. *)
Definition bidx (n i : nat) : nat := if n =? 1 then 0 else i.

(** Elementwise binary operation of two 1-D arrays. *)
Definition zip1 {A B C} (f : A -> B -> C) (a : arr1 A) (b : arr1 B)
    : result (arr1 C) :=
  match bcast (len a) (len b) with
  | Some n =>
      Ok (Arr1 n (fun i => f (at1 a (bidx (len a) i)) (at1 b (bidx (len b) i))))
  | None => Raise ValueError
  end.

(** Elementwise binary operation of two 2-D arrays. *)
Definition zip2 {A B C} (f : A -> B -> C) (a : arr2 A) (b : arr2 B)
    : result (arr2 C) :=
  match bcast (nrows a) (nrows b), bcast (ncols a) (ncols b) with
  | Some r, Some c =>
      Ok (Arr2 r c (fun i j =>
            f (at2 a (bidx (nrows a) i) (bidx (ncols a) j))
              (at2 b (bidx (nrows b) i) (bidx (ncols b) j))))
  | _, _ => Raise ValueError
  end.

(** A value of length [len v] written into a destination of length [n]:
    the value must have that length, or length 1. *)
Definition fits {A} (v : arr1 A) (n : nat) : bool :=
  (len v =? n) || (len v =? 1).

(** [np.zeros((d0, d1))], [np.zeros((d0, d1, d2))] *)
Definition zeros2 {A} (z : A) (d0 d1 : nat) : arr2 A :=
  Arr2 d0 d1 (fun _ _ => z).
Definition zeros3 {A} (z : A) (d0 d1 d2 : nat) : arr3 A :=
  Arr3 d0 d1 d2 (fun _ _ _ => z).

(** [p[i, :] = v] *)
Definition set_row {A} (p : arr2 A) (i : nat) (v : arr1 A) : result (arr2 A) :=
  if i <? nrows p then
    if fits v (ncols p) then
      Ok (Arr2 (nrows p) (ncols p)
            (fun a m => if a =? i then at1 v (bidx (len v) m) else at2 p a m))
    else Raise ValueError
  else Raise IndexError.

(** [h[i, j, :] = v] *)
Definition set_fibre {A} (h : arr3 A) (i j : nat) (v : arr1 A)
    : result (arr3 A) :=
  if (i <? dim0 h) && (j <? dim1 h) then
    if fits v (dim2 h) then
      Ok (Arr3 (dim0 h) (dim1 h) (dim2 h)
            (fun a b m => if (a =? i) && (b =? j)
                          then at1 v (bidx (len v) m) else at3 h a b m))
    else Raise ValueError
  else Raise IndexError.

(** [t += v] on a 1-D view [t]: the sum keeps the shape of [t]. *)
Definition iadd (t v : arr1 complex) : result (arr1 complex) :=
  if fits v (len t)
  then Ok (Arr1 (len t) (fun m => Cadd (at1 t m) (at1 v (bidx (len v) m))))
  else Raise ValueError.

(** *** Files and [np.loadtxt] *)

(** A file holds rows of numbers, or text that is not a table of numbers. *)
Inductive file : Type :=
| Numeric (rows : list (list Qc))
| Text (lines : list string).

Definition filesystem : Type := string -> option file.

(** What [np.loadtxt] returns: it skips the lines without values and
    squeezes axes of length one, so a table of one row or of one column
    comes back with one dimension. *)
Inductive ndarray : Type :=
| Nd0 (x : Qc)
| Nd1 (v : arr1 Qc)
| Nd2 (a : arr2 Qc).

Definition cell (rows : list (list Qc)) (i j : nat) : Qc :=
  nth j (nth i rows []) 0%Qc.

Definition width (rows : list (list Qc)) : nat := List.length (hd [] rows).

Definition rectangular (rows : list (list Qc)) : bool :=
  forallb (fun r => List.length r =? width rows) rows.

Definition squeeze (rows : list (list Qc)) : ndarray :=
  let r := List.length rows in
  let c := width rows in
  if r =? 0 then Nd1 (Arr1 0 (fun _ => 0%Qc))
  else if (r =? 1) && (c =? 1) then Nd0 (cell rows 0 0)
  else if r =? 1 then Nd1 (Arr1 c (fun j => cell rows 0 j))
  else if c =? 1 then Nd1 (Arr1 r (fun i => cell rows i 0))
  else Nd2 (Arr2 r c (cell rows)).

Definition loadtxt (fs : filesystem) (fname : option string) : result ndarray :=
  match fname with
  | None => Raise ValueError
  | Some f =>
      match fs f with
      | None => Raise OSError
      | Some (Text _) => Raise ValueError
      | Some (Numeric rows) =>
          let rows := filter (fun r => negb (List.length r =? 0)) rows in
          if rectangular rows then Ok (squeeze rows) else Raise ValueError
      end
  end.

(** [x[:, n]] and [x[:, lo:hi]] on a loaded array: two subscripts need two
    dimensions. *)
Definition nd_col (x : ndarray) (n : nat) : result (arr1 Qc) :=
  match x with
  | Nd2 a => col a n
  | _ => Raise IndexError
  end.

Definition nd_2d (x : ndarray) : result (arr2 Qc) :=
  match x with
  | Nd2 a => Ok a
  | _ => Raise IndexError
  end.

End Np.

Export Np.

Definition nd_cols (x : ndarray) (lo hi : nat) : result (arr2 Qc) :=
  a <- nd_2d x ;; Ok (slice_cols a lo hi).

Definition nd_cols_from (x : ndarray) (lo : nat) : result (arr2 Qc) :=
  a <- nd_2d x ;; Ok (slice_cols_from a lo).

(** ** The shell pipeline that extracts the mask *)

Module Sh.

(** What a command leaves behind: its exit status and the lines it wrote. *)
Record proc : Type := Proc { status : nat; stdout : list string }.

(** [contains p s]: the phrase [p] occurs in the line [s].  The phrase of
    the source has no character that is special in a pattern. *)
Fixpoint contains (p s : string) : bool :=
  prefix p s ||
  match s with
  | EmptyString => false
  | String _ s' => contains p s'
  end.

(** The lines [grep -A n] writes: every line that holds the phrase and the
    [n] lines after it; groups that are not adjacent are separated by a
    line of two dashes.  [after] counts the context lines still owed,
    [seen] tells that something was written, [gap] that a line was
    skipped since. *)
Fixpoint grep_lines (n : nat) (p : string) (after : nat) (seen gap : bool)
    (ls : list string) : list string :=
  match ls with
  | [] => []
  | l :: ls' =>
      if contains p l then
        (if gap then ["--"%string] else []) ++
        l :: grep_lines n p n true false ls'
      else
        match after with
        | S a => l :: grep_lines n p a true false ls'
        | O => grep_lines n p 0 seen seen ls'
        end
  end.

(** The text a search reads: a table of numbers has no line that holds the
    phrase, so for the search it is as good as empty. *)
Definition text_of (f : file) : list string :=
  match f with
  | Text ls => ls
  | Numeric _ => []
  end.

(** [grep -A n 'p' f]: status 0 when a line was selected, 1 when none was,
    2 when the file cannot be read. *)
Definition grep_A (fs : filesystem) (n : nat) (p f : string) : proc :=
  match fs f with
  | None => Proc 2 []
  | Some c =>
      let ls := text_of c in
      if existsb (contains p) ls
      then Proc 0 (grep_lines n p 0 false false ls)
      else Proc 1 []
  end.

(** [head -k] and [tail -k] on the lines that reach them. *)
Definition head (k : nat) (ls : list string) : proc := Proc 0 (firstn k ls).
Definition tail (k : nat) (ls : list string) : proc :=
  Proc 0 (skipn (List.length ls - k) ls).

(** [c | next]: the lines of [c] feed [next], and the status of a pipeline
    is the status of its last command. *)
Definition pipe (c : proc) (next : list string -> proc) : proc :=
  next (stdout c).

(** The name of the log is pasted into the command line without quotes.
    The shell reads it as the one file name it is when it is a plain
    word: letters, digits, and the characters [/ . _ -], not empty and not
    starting with a dash. *)
Definition plain_char (c : ascii) : bool :=
  let k := nat_of_ascii c in
  ((48 <=? k) && (k <=? 57)) || ((65 <=? k) && (k <=? 90)) ||
  ((97 <=? k) && (k <=? 122)) ||
  (k =? 47) || (k =? 46) || (k =? 95) || (k =? 45).

Fixpoint plain_chars (s : string) : bool :=
  match s with
  | EmptyString => true
  | String c s' => plain_char c && plain_chars s'
  end.

Definition plain_name (s : string) : bool :=
  match s with
  | EmptyString => false
  | String c _ => negb (Ascii.eqb c "-"%char) && plain_chars s
  end.

(** [subprocess.check_output(cmd, shell=True)] *)
Definition check_output (c : proc) : result (list string) :=
  if status c =? 0 then Ok (stdout c) else Raise CalledProcessError.

(** *** [bytes.split()] and the conversion of tokens to integers *)

Definition is_space (c : ascii) : bool :=
  let k := nat_of_ascii c in
  (k =? 32) || ((9 <=? k) && (k <=? 13)).

(** The tokens of one line; [cur] is the token being read. *)
Fixpoint tokens (cur s : string) : list string :=
  match s with
  | EmptyString => match cur with EmptyString => [] | _ => [cur] end
  | String c s' =>
      if is_space c then
        match cur with
        | EmptyString => tokens EmptyString s'
        | _ => cur :: tokens EmptyString s'
        end
      else tokens (cur ++ String c EmptyString) s'
  end.

(** [out.split()]: the lines are joined by newlines, which are spaces. *)
Definition split (out : list string) : list string :=
  flat_map (tokens EmptyString) out.

Definition digit (c : ascii) : option Z :=
  let k := nat_of_ascii c in
  if (48 <=? k) && (k <=? 57) then Some (Z.of_nat (k - 48)) else None.

(** The digits of a literal: groups of digits, with single underscores
    between two digits; [seen] tells that the last character was a digit. *)
Fixpoint digits (acc : Z) (seen : bool) (s : string) : option Z :=
  match s with
  | EmptyString => if seen then Some acc else None
  | String c s' =>
      match digit c with
      | Some d => digits (10 * acc + d)%Z true s'
      | None =>
          if Ascii.eqb c "_"%char && seen then digits acc false s' else None
      end
  end.

(** A decimal literal as [int] reads it: an optional sign, then digits. *)
Definition literal (s : string) : option Z :=
  match s with
  | EmptyString => None
  | String c s' =>
      if Ascii.eqb c "-"%char then option_map Z.opp (digits 0 false s')
      else if Ascii.eqb c "+"%char then digits 0 false s'
      else digits 0 false s
  end.

(** One token converted for an array of machine integers. *)
Definition to_int (s : string) : result Z :=
  match literal s with
  | None => Raise ValueError
  | Some z =>
      if ((- 2 ^ 63 <=? z) && (z <? 2 ^ 63))%Z then Ok z else Raise OverflowError
  end.

(** [np.array(toks, dtype=np.int)] *)
Fixpoint int_array (toks : list string) : result (list Z) :=
  match toks with
  | [] => Ok []
  | t :: ts => z <- to_int t ;; zs <- int_array ts ;; Ok (z :: zs)
  end.

(** [a.reshape(r, c)] of a flat array, in row-major order. *)
Definition reshape (zs : list Z) (r c : nat) : result (arr2 Z) :=
  if List.length zs =? r * c
  then Ok (Arr2 r c (fun i j => nth (i * c + j) zs 0%Z))
  else Raise ValueError.

End Sh.

Export Sh.

(** ** The readers of [readfile.py] *)

Module Readfile.

Section Readers.

(** The unit constant [eV] of the module of constants. *)
Variable eV : Qc.

(** What the shell makes of the command line when the name of the log is
    not a plain word (a space, a quote, a wildcard, a leading dash): this
    depends on the shell and on files the name does not denote, and is
    left open. *)
Variable shell : filesystem -> nat -> string -> proc.

Definition sys_exit {A : Type} (msg : string) : result A :=
  Raise (SystemExit msg).

(** [sys.error(msg)]: the module [sys] has no attribute [error]. *)
Definition sys_error {A : Type} (msg : string) : result A :=
  Raise AttributeError.

(** What [hyb] returns next to the mesh: the diagonal functions, or all. *)
Inductive functions : Type :=
| Diagonal (h_diagonal : arr2 complex)
| Full (h : arr3 complex).

(** [x + y*1j] for real [x] and [y]. *)
Definition plus_j (x : Qc) (yj : complex) : complex := Cadd (RtoC x) yj.
Definition times_j (y : Qc) : complex := Cmul (RtoC y) Ci.

Definition search_phrase : string :=
  "dumpdata: Mask of the printed off-diagonal elements:".

(** The command
    [grep -A 2*norb 'phrase' outfile | head -(2*norb+1) | tail -(2*norb)]. *)
Definition cmd (fs : filesystem) (norb : nat) (outfile : string) : proc :=
  if plain_name outfile then
    pipe (pipe (grep_A fs (2 * norb) search_phrase outfile)
               (head (2 * norb + 1)))
         (tail (2 * norb))
  else shell fs norb outfile.

Definition is_CalledProcessError (e : exn) : bool :=
  match e with CalledProcessError => true | _ => false end.

(** Lines 64 to 71: the mask of the off-diagonal elements. *)
Definition read_mask (fs : filesystem) (norb : nat) (spinpol : bool)
    (outfile : string) : result (arr2 bool) :=
  mask <- try_except
            (string <- check_output (cmd fs norb outfile) ;;
             ints <- int_array (split string) ;;
             reshape ints (2 * norb) (2 * norb))
            is_CalledProcessError
            (sys_error "Mask in out-file is absent.") ;;
  let mask := map2 (Z.eqb 1) mask in
  Ok (if negb spinpol then slice_block mask norb norb else mask).

(** Lines 75 and 76: [for i in range(nc): h[i, i, :] = h_diagonal[i, :]]. *)
Definition fill_diagonal (nc : nat) (h_diagonal : arr2 complex)
    (h : arr3 complex) : result (arr3 complex) :=
  for_each (range nc)
    (fun i h => d <- row h_diagonal i ;; set_fibre h i i d) h.

(** Lines 81 to 83, the body of the two loops. *)
Definition fill_cell (re im : arr2 Qc) (mask : arr2 bool) (j i : nat)
    (st : arr3 complex * nat) : result (arr3 complex * nat) :=
  let '(h, n) := st in
  b <- item2 mask i j ;;
  if (b : bool) then
    t <- fibre h i j ;;
    r <- col re n ;;
    c <- col im n ;;
    v <- zip1 plus_j r (map1 times_j c) ;;
    t <- iadd t v ;;
    h <- set_fibre h i j t ;;
    Ok (h, n + 1)
  else Ok (h, n).

(** Lines 78 to 83: the scan of the mask, columns outside, rows inside;
    the counter [n] of the columns used is returned with the matrix. *)
Definition fill_offdiagonal (nc : nat) (re im : arr2 Qc) (mask : arr2 bool)
    (h : arr3 complex) : result (arr3 complex * nat) :=
  for_each (range nc)
    (fun j st => for_each (range nc) (fill_cell re im mask j) st) (h, 0).

(** Lines 36 to 43: the mesh and the diagonal functions. *)
Definition read_diagonal (fs : filesystem) (file_re file_im : string)
    (nc : nat) : result (arr1 Qc * arr2 complex) :=
  re <- loadtxt fs (Some file_re) ;;
  im <- loadtxt fs (Some file_im) ;;
  w <- nd_col re 0 ;;
  let w := map1 (Qcmult eV) w in
  re <- nd_cols re 4 (4 + nc) ;;
  let re := map2 (Qcmult eV) (transpose re) in
  im <- nd_cols im 4 (4 + nc) ;;
  let im := map2 (Qcmult eV) (transpose im) in
  h_diagonal <- zip2 plus_j re (map2 times_j im) ;;
  Ok (w, h_diagonal).

(** Lines 56 and 57: the off-diagonal functions, without the mesh. *)
Definition read_offdiagonal (fs : filesystem) (file_off : string)
    : result (arr2 Qc) :=
  x <- loadtxt fs (Some file_off) ;;
  x <- nd_cols_from x 1 ;;
  Ok (map2 (Qcmult eV) x).

Definition hyb (fs : filesystem) (file_re file_im : string) (norb : nat)
    (spinpol : bool) (file_re_off file_im_off outfile : option string)
    (return_as_full_matrix : bool) : result (arr1 Qc * functions) :=
  let nc := if spinpol then 2 * norb else norb in
  '(w, h_diagonal) <- read_diagonal fs file_re file_im nc ;;
  match file_re_off, file_im_off, outfile with
  | None, None, None =>
      if return_as_full_matrix then
        h <- fill_diagonal nc h_diagonal (zeros3 C0 nc nc (len w)) ;;
        Ok (w, Full h)
      else Ok (w, Diagonal h_diagonal)
  | Some file_re_off, Some file_im_off, Some outfile =>
      re <- read_offdiagonal fs file_re_off ;;
      im <- read_offdiagonal fs file_im_off ;;
      mask <- read_mask fs norb spinpol outfile ;;
      h <- fill_diagonal nc h_diagonal (zeros3 C0 nc nc (len w)) ;;
      '(h, _) <- fill_offdiagonal nc re im mask h ;;
      Ok (w, Full h)
  | _, _, _ =>
      sys_exit "Wrong input parameters."
  end.

Definition self_energy (fs : filesystem) (file_re file_im : string)
    (spinpol : bool) (file_re_off file_im_off : option string)
    : result (arr1 Qc * arr2 complex * arr3 complex) :=
  re <- loadtxt fs (Some file_re) ;;
  im <- loadtxt fs (Some file_im) ;;
  w <- nd_col re 0 ;;
  let w := map1 (Qcmult eV) w in
  re <- nd_cols_from re 4 ;;
  im <- nd_cols_from im 4 ;;
  s <- zip2 plus_j re (map2 (fun y => Cmul Ci (RtoC y)) im) ;;
  let sig_diagonal := map2 (Cscale eV) (transpose s) in
  let nc := nrows sig_diagonal in
  let nw := ncols sig_diagonal in
  let norb := if spinpol then nc / 2 else nc in
  re <- loadtxt fs file_re_off ;;
  re <- nd_cols_from re 1 ;;
  let re := map2 (Qcmult eV) re in
  im <- loadtxt fs file_im_off ;;
  im <- nd_cols_from im 1 ;;
  let im := map2 (Qcmult eV) im in
  sig <- for_each (range nc)
           (fun i sig => d <- row sig_diagonal i ;; set_fibre sig i i d)
           (zeros3 C0 nc nc nw) ;;
  _ <- sys_exit (A := unit) "Implementation not complete..." ;;
  (* Lines 138 to 150 are not reached.  Each turn of the loop over [j]
     starts by adding two ranges, which is an error of type. *)
  sig <- for_each (range nc) (fun j sig => Raise TypeError) sig ;;
  Ok (w, sig_diagonal, sig).

Definition pdos (fs : filesystem) (filename : string) (norb : nat)
    (spinpol : bool) : result (arr1 Qc * arr2 Qc) :=
  let nc := if spinpol then 2 * norb else norb in
  tmp <- loadtxt fs (Some filename) ;;
  w <- nd_col tmp 0 ;;
  let w := map1 (Qcmult eV) w in
  let p := zeros2 0%Qc nc (len w) in
  let k := if spinpol then 7 else 2 in
  p <- for_each (range nc)
         (fun i p => c <- nd_col tmp (k + i) ;;
                     set_row p i (map1 (fun x => Qcdiv x eV) c)) p ;;
  Ok (w, p).

End Readers.

End Readfile.

Export Readfile.

(** ** Concrete files used to run the readers *)

Module Examples.

Definition qc (q : Q) : Qc := Q2Qc q.

(** The two rows of the hybridization scenario. *)
Definition hyb_rows : list (list Qc) :=
  [ [qc (-5); qc 0; qc 0; qc 0; qc 1.0; qc 2.0];
    [qc (-4); qc 0; qc 0; qc 0; qc 1.5; qc 2.5] ].

(** A projected density of states with seven leading columns. *)
Definition pdos_rows : list (list Qc) :=
  [ [qc (-5); qc 0; qc 0; qc 0; qc 0; qc 0; qc 0; qc 0.25; qc 0.5];
    [qc (-4); qc 0; qc 0; qc 0; qc 0; qc 0; qc 0; qc 0.75; qc 1.5] ].

(** Off-diagonal functions: the mesh and three columns of data. *)
Definition off_rows : list (list Qc) :=
  [ [qc (-5); qc 10; qc 20; qc 30];
    [qc (-4); qc 11; qc 21; qc 31] ].

(** A log with the mask of two orbitals and both spins. *)
Definition log_lines : list string :=
  [ "RSPt log"%string;
    " dumpdata: Mask of the printed off-diagonal elements:"%string;
    " 0 1 0 0"%string;
    " 1 0 0 0"%string;
    " 0 0 0 1"%string;
    " 0 0 1 0"%string;
    "end"%string ].

(** A log laid out with the mask of two orbitals only. *)
Definition log_lines_nc : list string :=
  [ " dumpdata: Mask of the printed off-diagonal elements:"%string;
    " 0 1"%string;
    " 1 0"%string;
    "end"%string ].

(** The names of the files below are plain words, so what the shell does
    with other names plays no part in the runs. *)
Definition no_shell : filesystem -> nat -> string -> proc :=
  fun _ _ _ => Proc 2 [].

Definition fs0 : filesystem := fun f =>
  if String.eqb f "hyb-re.dat" then Some (Numeric hyb_rows)
  else if String.eqb f "hyb-im.dat" then Some (Numeric hyb_rows)
  else if String.eqb f "off-re.dat" then Some (Numeric off_rows)
  else if String.eqb f "off-im.dat" then Some (Numeric off_rows)
  else if String.eqb f "pdos.dat" then Some (Numeric pdos_rows)
  else if String.eqb f "out" then Some (Text log_lines)
  else if String.eqb f "out-nc" then Some (Text log_lines_nc)
  else if String.eqb f "out-nomask" then Some (Text ["RSPt log"%string])
  else None.

(** The tables of [fs0] as [np.loadtxt] returns them. *)
Definition hyb_table : arr2 Qc := Arr2 2 6 (cell hyb_rows).
Definition off_table : arr2 Qc := Arr2 2 4 (cell off_rows).
Definition pdos_table : arr2 Qc := Arr2 2 9 (cell pdos_rows).



End Examples.

(** ** Vocabulary of the properties *)

Module Props.

(** How many of the three optional arguments of [hyb] are supplied. *)
Definition supplied (file_re_off file_im_off outfile : option string) : nat :=
  let one (o : option string) := match o with Some _ => 1 | None => 0 end in
  one file_re_off + one file_im_off + one outfile.

(** The error of [hyb] on a wrong set of arguments. *)
Definition wrong_input {A : Type} : result A :=
  Raise (SystemExit "Wrong input parameters.").

(** The error of [self_energy] on its unfinished part. *)
Definition not_complete {A : Type} : result A :=
  Raise (SystemExit "Implementation not complete...").

(** The message meant for a log without the mask. *)
Definition mask_absent {A : Type} : result A :=
  Raise (SystemExit "Mask in out-file is absent.").

(** A computation that does not end in [sys.exit]. *)
Definition quiet {A : Type} (c : result A) : Prop :=
  forall msg, c <> Raise (SystemExit msg).

(** The cells of an [nc] by [nc] matrix in column-major order: the columns
    [j] one after the other, the rows [i] inside a column. *)
Definition column_major (nc : nat) : list (nat * nat) :=
  flat_map (fun j => map (fun i => (i, j)) (range nc)) (range nc).

(** The mask entry of a cell [(i, j)]. *)
Definition mask_at (mask : arr2 bool) (c : nat * nat) : bool :=
  at2 mask (fst c) (snd c).

(** The cells whose mask entry is true, in the order of the scan. *)
Definition true_cells (mask : arr2 bool) (nc : nat) : list (nat * nat) :=
  filter (mask_at mask) (column_major nc).

(** The body of the two loops of the fill, as a function of the cell. *)
Definition cell_body (re im : arr2 Qc) (mask : arr2 bool) (c : nat * nat)
    (st : arr3 complex * nat) : result (arr3 complex * nat) :=
  fill_cell re im mask (snd c) (fst c) st.




End Props.

Export Props.

(** ** Vocabulary of the edge cases *)

Module Edge.



(** An array that [np.loadtxt] returned with two dimensions. *)
Definition two_dims (x : ndarray) : bool :=
  match x with
  | Nd2 _ => true
  | _ => false
  end.

(** The leading metadata columns of a density file. *)
Definition pdos_offset (spinpol : bool) : nat := if spinpol then 7 else 2.

(** The number of spin-orbitals. *)
Definition spin_orbitals (norb : nat) (spinpol : bool) : nat :=
  if spinpol then 2 * norb else norb.

End Edge.

Export Edge.

(** ** More files, for the edge cases *)

Module EdgeFiles.

Import Examples.

(** A table of three rows, a table of one data column, a table of one
    row. *)
Definition three_rows : list (list Qc) :=
  [ [qc (-5); qc 0; qc 0; qc 0; qc 1.0; qc 2.0];
    [qc (-4); qc 0; qc 0; qc 0; qc 1.5; qc 2.5];
    [qc (-3); qc 0; qc 0; qc 0; qc 2.0; qc 3.0] ].

Definition off_one_column : list (list Qc) :=
  [ [qc (-5); qc 10]; [qc (-4); qc 11] ].

Definition off_three_rows : list (list Qc) :=
  [ [qc (-5); qc 10; qc 20]; [qc (-4); qc 11; qc 21]; [qc (-3); qc 12; qc 22] ].

Definition marker_line : string :=
  " dumpdata: Mask of the printed off-diagonal elements:".

(** Logs for one orbital with both spins: a mask with two true entries, a
    mask without any, five integers in place of four, and a log that ends
    one line after the phrase. *)
Definition log_two : list string :=
  [ marker_line; " 0 1"%string; " 1 0"%string; "end"%string ].
Definition log_zero : list string :=
  [ marker_line; " 0 0"%string; " 0 0"%string; "end"%string ].
Definition log_five : list string :=
  [ marker_line; " 0 1 0"%string; " 1 0"%string; "end"%string ].
Definition log_truncated : list string :=
  [ "RSPt log"%string; marker_line; " 0 1"%string ].

Definition fs1 : filesystem := fun f =>
  if String.eqb f "three-rows.dat" then Some (Numeric three_rows)
  else if String.eqb f "one-row.dat" then Some (Numeric [hd [] hyb_rows])
  else if String.eqb f "off-one.dat" then Some (Numeric off_one_column)
  else if String.eqb f "off-three.dat" then Some (Numeric off_three_rows)
  else if String.eqb f "out-two" then Some (Text log_two)
  else if String.eqb f "out-zero" then Some (Text log_zero)
  else if String.eqb f "out-five" then Some (Text log_five)
  else if String.eqb f "out-truncated" then Some (Text log_truncated)
  else fs0 f.

Definition three_rows_table : arr2 Qc := Arr2 3 6 (cell three_rows).
Definition off_one_table : arr2 Qc := Arr2 2 2 (cell off_one_column).

(** The masks of [log_two] and [log_zero] as [read_mask] returns them with
    spin polarization. *)
Definition mask_of (zs : list Z) : arr2 bool :=
  map2 (Z.eqb 1) (Arr2 (2 * 1) (2 * 1) (fun i j => nth (i * (2 * 1) + j) zs 0%Z)).

End EdgeFiles.

(** ** Loops and broadcasting: general facts *)

Section Loops.

Context {S : Type}.
Variable body : nat -> S -> result S.

(** A loop over [seq a n] whose body never raises under the invariant
    returns, and the invariant holds at the end. *)
Lemma for_seq_total (Inv : nat -> S -> Prop) (n : nat) :
  forall a s,
    (forall i s0, a <= i < a + n -> Inv i s0 ->
       exists s1, body i s0 = Ok s1 /\ Inv (i + 1) s1) ->
    Inv a s ->
    exists s', for_each (seq a n) body s = Ok s' /\ Inv (a + n) s'.
Proof.
  induction n as [|n IH]; intros a s Hstep H0; simpl.
  - exists s. rewrite Nat.add_0_r. auto.
  - destruct (Hstep a s) as (s1 & E1 & H1); [lia | assumption |].
    rewrite E1. simpl.
    destruct (IH (a + 1) s1) as (s' & E' & H'); [| assumption |].
    + intros i s0 Hi. apply Hstep. lia.
    + exists s'. replace (Datatypes.S a) with (a + 1) by lia.
      replace (a + Datatypes.S n) with (a + 1 + n) by lia. auto.
Qed.

Lemma for_range_total (Inv : nat -> S -> Prop) (n : nat) (s : S) :
  (forall i s0, i < n -> Inv i s0 ->
     exists s1, body i s0 = Ok s1 /\ Inv (i + 1) s1) ->
  Inv 0 s ->
  exists s', for_each (range n) body s = Ok s' /\ Inv n s'.
Proof.
  intros Hstep H0. unfold range.
  apply (for_seq_total Inv n 0 s); auto.
  intros i s0 Hi. apply Hstep. lia.
Qed.

End Loops.

(** A table that comes back with two dimensions has at least two rows
    and two columns. *)
Lemma loadtxt_two_dims (fs : filesystem) (f : option string) (a : arr2 Qc) :
  loadtxt fs f = Ok (Nd2 a) -> 2 <= nrows a /\ 2 <= ncols a.
Proof.
  unfold loadtxt. destruct f as [f|]; [| discriminate].
  destruct (fs f) as [[rows|ls]|]; try discriminate.
  set (rows' := filter _ rows).
  assert (Hw : rows' <> [] -> 1 <= width rows').
  { unfold width. destruct rows' as [|r rs] eqn:E; [congruence |].
    intros _. assert (Hin : In r rows') by (rewrite E; left; reflexivity).
    apply filter_In in Hin as (_ & Hr). cbn [hd].
    destruct (Nat.eqb_spec (List.length r) 0); [discriminate | lia]. }
  destruct (rectangular rows'); [| discriminate].
  unfold squeeze. intros E.
  destruct (Nat.eqb_spec (List.length rows') 0); [discriminate |].
  destruct (Nat.eqb_spec (List.length rows') 1); cbn [andb] in E.
  - destruct (width rows' =? 1); discriminate.
  - destruct (Nat.eqb_spec (width rows') 1); [discriminate |].
    injection E as <-. cbn [nrows ncols].
    assert (rows' <> []) by (destruct rows'; [contradiction | discriminate]).
    specialize (Hw H). lia.
Qed.

Lemma bidx_lt (n i : nat) : i < n -> bidx n i = i.
Proof.
  unfold bidx. intros H. destruct (Nat.eqb_spec n 1); [lia | reflexivity].
Qed.

Lemma bcast_same (n : nat) : bcast n n = Some n.
Proof.
  unfold bcast. destruct (Nat.eqb_spec n 1); [congruence |].
  rewrite Nat.eqb_refl. reflexivity.
Qed.

Lemma bind_ok {A B} (c : result A) (k : A -> result B) (b : B) :
  bind c k = Ok b -> exists a, c = Ok a /\ k a = Ok b.
Proof. destruct c as [a|e]; simpl; [eauto | discriminate]. Qed.

(** [x + y*1j] has real part [x] and imaginary part [y]. *)
Lemma plus_times_j (x y : Qc) : plus_j x (times_j y) = mkC x y.
Proof.
  unfold plus_j, times_j, Cadd, Cmul, RtoC, Ci. simpl. f_equal; ring.
Qed.

(** The unit constant distributes over a complex number. *)
Lemma Cscale_mkC (k x y : Qc) : Cscale k (mkC x y) = mkC (k * x)%Qc (k * y)%Qc.
Proof. unfold Cscale, Cmul, RtoC. simpl. f_equal; ring. Qed.

(** ** The reader of projected densities of states *)

Section Pdos.

Variable eV : Qc.
Variable shell : filesystem -> nat -> string -> proc.

(** C8, as the code has it.
    A table of two dimensions with at least [k + nc] columns, where
    [k] is 7 with spin polarization and 2 without: [pdos] returns; the mesh
    is [eV] times column 0, one value per row of the table; the densities
    have [nc] rows, row [i] being column [k + i] divided by [eV].  With
    spin polarization and one orbital these are columns 7 and 8. *)
Theorem pdos_columns (fs : filesystem) (filename : string) (norb : nat)
    (spinpol : bool) (tmp : arr2 Qc) :
  let nc := if spinpol then 2 * norb else norb in
  let k := if spinpol then 7 else 2 in
  loadtxt fs (Some filename) = Ok (Nd2 tmp) ->
  k + nc <= ncols tmp ->
  exists w p,
    pdos eV fs filename norb spinpol = Ok (w, p) /\
    len w = nrows tmp /\
    (forall m, m < nrows tmp -> at1 w m = (eV * at2 tmp m 0)%Qc) /\
    nrows p = nc /\ ncols p = nrows tmp /\
    (forall i m, i < nc -> m < nrows tmp ->
       at2 p i m = (at2 tmp m (k + i) / eV)%Qc) /\
    (spinpol = true -> norb = 1 ->
     forall m, m < nrows tmp ->
       at2 p 0 m = (at2 tmp m 7 / eV)%Qc /\ at2 p 1 m = (at2 tmp m 8 / eV)%Qc).
Proof.
  intros nc k Hload Hcols.
  assert (Hk : 2 <= k) by (subst k; destruct spinpol; lia).
  unfold pdos. fold nc k. rewrite Hload. cbn [bind nd_col].
  unfold col at 1. destruct (Nat.ltb_spec 0 (ncols tmp)) as [_|]; [| lia].
  cbn [bind map1 len].
  set (p0 := zeros2 0%Qc nc (nrows tmp)).
  set (body := fun (i : nat) (p : arr2 Qc) =>
     c <- col tmp (k + i) ;; set_row p i (map1 (fun x => (x / eV)%Qc) c)).
  destruct (for_range_total body
    (fun i p => nrows p = nc /\ ncols p = nrows tmp /\
       forall a m, a < i -> m < nrows tmp ->
         at2 p a m = (at2 tmp m (k + a) / eV)%Qc) nc p0)
    as (p & Ep & Hr & Hc & Hp).
  - intros i p Hi (Hr & Hc & Hp). unfold body, col, set_row.
    destruct (Nat.ltb_spec (k + i) (ncols tmp)); [| lia]. cbn [bind].
    destruct (Nat.ltb_spec i (nrows p)); [| lia].
    unfold fits. cbn [map1 len]. rewrite Hc, Nat.eqb_refl. cbn [orb].
    eexists. split; [reflexivity |]. cbn [nrows ncols at2].
    repeat split; auto.
    intros a m Ha Hm. destruct (Nat.eqb_spec a i) as [->|Hne].
    + rewrite bidx_lt by assumption. reflexivity.
    + apply Hp; lia.
  - subst p0. cbn. repeat split; auto. intros a m Ha. lia.
  - eexists _, p. rewrite Ep. cbn [bind].
    split; [reflexivity |]. cbn [len at1].
    do 5 (split; [auto |]).
    intros Hs Hn m Hm.
    assert (Hnc : nc = 2) by (subst nc; rewrite Hs, Hn; reflexivity).
    assert (Hk7 : k = 7) by (subst k; rewrite Hs; reflexivity).
    split.
    + replace 7 with (k + 0) by lia. apply Hp; lia.
    + replace 8 with (k + 1) by lia. apply Hp; lia.
Qed.

End Pdos.

(** ** The diagonal functions of [hyb] *)

Section Diagonal.

Variable eV : Qc.
Variable shell : filesystem -> nat -> string -> proc.

Lemma slice_cols_width {A} (a : arr2 A) (lo n : nat) :
  lo + n <= ncols a ->
  ncols (slice_cols a lo (lo + n)) = n /\
  nrows (slice_cols a lo (lo + n)) = nrows a /\
  forall i j, at2 (slice_cols a lo (lo + n)) i j = at2 a i (lo + j).
Proof.
  intros H. unfold slice_cols. cbn [ncols nrows at2].
  rewrite (Nat.min_l lo), (Nat.min_l (lo + n)) by lia.
  repeat split. lia.
Qed.

(** Two tables of two dimensions, with the same number of rows and at
    least [4 + nc] columns each: lines 36 to 43 return the mesh and a
    table of [nc] rows, one value per row of the input. *)
Lemma read_diagonal_valid (fs : filesystem) (file_re file_im : string)
    (nc : nat) (re im : arr2 Qc) :
  loadtxt fs (Some file_re) = Ok (Nd2 re) ->
  loadtxt fs (Some file_im) = Ok (Nd2 im) ->
  4 + nc <= ncols re -> 4 + nc <= ncols im -> nrows im = nrows re ->
  exists w hd,
    read_diagonal eV fs file_re file_im nc = Ok (w, hd) /\
    len w = nrows re /\
    (forall m, m < nrows re -> at1 w m = (eV * at2 re m 0)%Qc) /\
    nrows hd = nc /\ ncols hd = nrows re /\
    (forall i m, i < nc -> m < nrows re ->
       at2 hd i m =
       mkC (eV * at2 re m (4 + i))%Qc (eV * at2 im m (4 + i))%Qc).
Proof.
  intros Lre Lim Cre Cim Hrows.
  destruct (slice_cols_width re 4 nc Cre) as (Wre & Rre & Are).
  destruct (slice_cols_width im 4 nc Cim) as (Wim & Rim & Aim).
  unfold read_diagonal. rewrite Lre, Lim. cbn [bind nd_col nd_cols nd_2d].
  unfold col. destruct (Nat.ltb_spec 0 (ncols re)); [| lia].
  cbn [bind]. unfold zip2.
  cbn [map2 transpose nrows ncols at2].
  rewrite Wre, Wim, Rre, Rim, Hrows, !bcast_same.
  eexists _, _. split; [reflexivity |].
  cbn [len at1 map1 nrows ncols at2]. repeat split.
  intros i m Hi Hm. rewrite !bidx_lt by assumption.
  rewrite Are, Aim. apply plus_times_j.
Qed.

(** Lines 75 and 76 on a fresh matrix: the diagonal is copied, the rest
    stays zero. *)
Lemma fill_diagonal_zeros (nc nw : nat) (hd : arr2 complex) :
  nrows hd = nc -> ncols hd = nw ->
  exists h,
    fill_diagonal nc hd (zeros3 C0 nc nc nw) = Ok h /\
    dim0 h = nc /\ dim1 h = nc /\ dim2 h = nw /\
    (forall i j m, i < nc -> j < nc -> m < nw ->
       at3 h i j m = if i =? j then at2 hd i m else C0).
Proof.
  intros Hr Hc. unfold fill_diagonal.
  destruct (for_range_total
    (fun i h => d <- row hd i ;; set_fibre h i i d)
    (fun k h => dim0 h = nc /\ dim1 h = nc /\ dim2 h = nw /\
       forall i j m, i < nc -> j < nc -> m < nw ->
         at3 h i j m = if (i =? j) && (i <? k) then at2 hd i m else C0)
    nc (zeros3 C0 nc nc nw)) as (h & Eh & D0 & D1 & D2 & Hh).
  - intros k h Hk (D0 & D1 & D2 & Hh). unfold row, set_fibre.
    destruct (Nat.ltb_spec k (nrows hd)); [| lia]. cbn [bind].
    rewrite D0, D1, D2.
    destruct (Nat.ltb_spec k nc); [| lia]. cbn [andb].
    unfold fits. cbn [len]. rewrite Hc, Nat.eqb_refl. cbn [orb].
    eexists. split; [reflexivity |]. cbn [dim0 dim1 dim2 at3 at1].
    repeat split; auto. intros i j m Hi Hj Hm.
    rewrite bidx_lt by assumption.
    destruct (Nat.eqb_spec i k) as [->|Hik];
      destruct (Nat.eqb_spec j k) as [->|Hjk]; cbn [andb].
    + rewrite Nat.eqb_refl.
      destruct (Nat.ltb_spec k (k + 1)); [reflexivity | lia].
    + rewrite Hh by assumption.
      destruct (Nat.eqb_spec k j); [congruence | reflexivity].
    + rewrite Hh by assumption.
      destruct (Nat.eqb_spec i k); [congruence | reflexivity].
    + rewrite Hh by assumption.
      destruct (Nat.eqb_spec i j); [| reflexivity]. cbn [andb].
      destruct (Nat.ltb_spec i k), (Nat.ltb_spec i (k + 1)); (reflexivity || lia).
  - cbn. repeat split. intros i j m _ _ _.
    rewrite Bool.andb_false_r. reflexivity.
  - exists h. repeat split; auto. intros i j m Hi Hj Hm.
    rewrite Hh by assumption.
    destruct (Nat.ltb_spec i nc); [| lia].
    rewrite Bool.andb_true_r. reflexivity.
Qed.

End Diagonal.

Section HybDiagonal.

Variable eV : Qc.
Variable shell : filesystem -> nat -> string -> proc.

(** The diagonal-only call of [hyb] on two tables of two dimensions with
    the same number of rows and at least [4 + nc] columns each. *)
Lemma hyb_diagonal_valid (fs : filesystem) (file_re file_im : string)
    (norb : nat) (spinpol : bool) (re im : arr2 Qc) :
  let nc := if spinpol then 2 * norb else norb in
  loadtxt fs (Some file_re) = Ok (Nd2 re) ->
  loadtxt fs (Some file_im) = Ok (Nd2 im) ->
  4 + nc <= ncols re -> 4 + nc <= ncols im -> nrows im = nrows re ->
  exists w hd,
    hyb eV shell fs file_re file_im norb spinpol None None None false
      = Ok (w, Diagonal hd) /\
    len w = nrows re /\
    (forall m, m < nrows re -> at1 w m = (eV * at2 re m 0)%Qc) /\
    nrows hd = nc /\ ncols hd = nrows re /\
    (forall i m, i < nc -> m < nrows re ->
       at2 hd i m = Cscale eV (mkC (at2 re m (4 + i)) (at2 im m (4 + i)))).
Proof.
  intros nc Lre Lim Cre Cim Hrows.
  destruct (read_diagonal_valid eV fs file_re file_im nc re im
              Lre Lim Cre Cim Hrows) as (w & hd & E & Hw & Hwm & Hr & Hc & Hd).
  exists w, hd. unfold hyb. fold nc. rewrite E. cbn [bind].
  repeat split; auto.
  intros i m Hi Hm. rewrite Cscale_mkC. apply Hd; assumption.
Qed.

(** C6, as the code has it.
    Two tables of two dimensions with the same number of rows and at
    least [4 + nc] columns each: [hyb] returns the mesh, [eV] times column
    0 with one value per row, and a table of exactly [nc] rows whose entry
    [i] at mesh point [m] is [eV] times [re[m, 4+i] + i im[m, 4+i]].  On
    the two rows of the scenario (two orbitals, no spin polarization) the
    mesh is [eV * -5, eV * -4], the table is 2 by 2, and its entries at mesh
    point 0 are [eV (1 + 1j)] and [eV (2 + 2j)]. *)
Theorem hyb_diagonal_table :
  (forall (fs : filesystem) (file_re file_im : string) (norb : nat)
          (spinpol : bool) (re im : arr2 Qc),
     let nc := if spinpol then 2 * norb else norb in
     loadtxt fs (Some file_re) = Ok (Nd2 re) ->
     loadtxt fs (Some file_im) = Ok (Nd2 im) ->
     4 + nc <= ncols re -> 4 + nc <= ncols im -> nrows im = nrows re ->
     exists w hd,
       hyb eV shell fs file_re file_im norb spinpol None None None false
         = Ok (w, Diagonal hd) /\
       len w = nrows re /\
       (forall m, m < nrows re -> at1 w m = (eV * at2 re m 0)%Qc) /\
       nrows hd = nc /\ ncols hd = nrows re /\
       (forall i m, i < nc -> m < nrows re ->
          at2 hd i m =
          Cscale eV (mkC (at2 re m (4 + i)) (at2 im m (4 + i))))) /\
  (exists w hd,
     hyb eV shell Examples.fs0 "hyb-re.dat" "hyb-im.dat" 2 false None None None false
       = Ok (w, Diagonal hd) /\
     to_list1 w = [(eV * Examples.qc (-5))%Qc; (eV * Examples.qc (-4))%Qc] /\
     nrows hd = 2 /\ ncols hd = 2 /\
     at2 hd 0 0 = Cscale eV (mkC (Examples.qc 1.0) (Examples.qc 1.0)) /\
     at2 hd 1 0 = Cscale eV (mkC (Examples.qc 2.0) (Examples.qc 2.0))).
Proof.
  split; [exact hyb_diagonal_valid |].
  pose proof (hyb_diagonal_valid Examples.fs0 "hyb-re.dat" "hyb-im.dat"
                2 false (Arr2 2 6 (cell Examples.hyb_rows))
                (Arr2 2 6 (cell Examples.hyb_rows))) as G.
  cbv zeta in G. cbn [ncols nrows] in G.
  destruct G as (w & hd & E & Hw & Hwm & Hr & Hc & Hd);
    [reflexivity | reflexivity | lia | lia | reflexivity |].
  exists w, hd. split; [exact E |]. split.
  { unfold to_list1. rewrite Hw. cbn [seq map].
    rewrite (Hwm 0), (Hwm 1) by lia. reflexivity. }
  split; [exact Hr |]. split; [exact Hc |]. split.
  - rewrite (Hd 0 0) by lia. reflexivity.
  - rewrite (Hd 1 0) by lia. reflexivity.
Qed.

(** C9.  On the same diagonal-only input, the matrix returned with
    [return_as_full_matrix] and the table returned without it come with
    the same mesh, and the diagonal of the matrix is the table, at every
    spin-orbital and every mesh point. *)
Theorem hyb_full_matrix_diagonal (fs : filesystem) (file_re file_im : string)
    (norb : nat) (spinpol : bool) (re im : arr2 Qc) :
  let nc := if spinpol then 2 * norb else norb in
  loadtxt fs (Some file_re) = Ok (Nd2 re) ->
  loadtxt fs (Some file_im) = Ok (Nd2 im) ->
  4 + nc <= ncols re -> 4 + nc <= ncols im -> nrows im = nrows re ->
  exists w hd h,
    hyb eV shell fs file_re file_im norb spinpol None None None false
      = Ok (w, Diagonal hd) /\
    hyb eV shell fs file_re file_im norb spinpol None None None true
      = Ok (w, Full h) /\
    nrows hd = nc /\ ncols hd = len w /\
    dim0 h = nc /\ dim1 h = nc /\ dim2 h = len w /\
    (forall i m, i < nc -> m < len w -> at3 h i i m = at2 hd i m).
Proof.
  intros nc Lre Lim Cre Cim Hrows.
  destruct (read_diagonal_valid eV fs file_re file_im nc re im
              Lre Lim Cre Cim Hrows) as (w & hd & E & Hw & Hwm & Hr & Hc & Hd).
  destruct (fill_diagonal_zeros nc (len w) hd Hr) as (h & Eh & D0 & D1 & D2 & Hh);
    [congruence |].
  exists w, hd, h. unfold hyb. fold nc. rewrite E. cbn [bind].
  rewrite Eh. cbn [bind]. repeat split; auto; try congruence.
  intros i m Hi Hm. rewrite Hh by assumption.
  rewrite Nat.eqb_refl. reflexivity.
Qed.

End HybDiagonal.

(** ** The scan of the mask *)

Section ForEach.

Context {I J S : Type}.

Lemma for_each_app (l1 l2 : list I) (body : I -> S -> result S) (s : S) :
  for_each (l1 ++ l2) body s = bind (for_each l1 body s) (for_each l2 body).
Proof.
  revert s. induction l1 as [|i l1 IH]; intros s; cbn [for_each app bind].
  - reflexivity.
  - destruct (body i s) as [s1|e]; cbn [bind]; [apply IH | reflexivity].
Qed.

Lemma for_each_ext (l : list I) (f g : I -> S -> result S) (s : S) :
  (forall i s0, In i l -> f i s0 = g i s0) ->
  for_each l f s = for_each l g s.
Proof.
  revert s. induction l as [|i l IH]; intros s H; cbn [for_each].
  - reflexivity.
  - rewrite (H i s) by (left; reflexivity).
    destruct (g i s) as [s1|e]; cbn [bind]; [| reflexivity].
    apply IH. intros i0 s0 Hi. apply H. right. assumption.
Qed.

Lemma for_each_map (f : J -> I) (l : list J) (body : I -> S -> result S) (s : S) :
  for_each (map f l) body s = for_each l (fun j => body (f j)) s.
Proof.
  revert s. induction l as [|j l IH]; intros s; cbn [for_each map].
  - reflexivity.
  - destruct (body (f j) s) as [s1|e]; cbn [bind]; [apply IH | reflexivity].
Qed.

Lemma for_each_flat_map (f : J -> list I) (l : list J)
    (body : I -> S -> result S) (s : S) :
  for_each (flat_map f l) body s
  = for_each l (fun j st => for_each (f j) body st) s.
Proof.
  revert s. induction l as [|j l IH]; intros s; cbn [for_each flat_map].
  - reflexivity.
  - rewrite for_each_app.
    destruct (for_each (f j) body s) as [s1|e]; cbn [bind];
      [apply IH | reflexivity].
Qed.

End ForEach.

(** The two nested loops are one loop over the cells in column-major
    order. *)
Lemma fill_offdiagonal_scan (nc : nat) (re im : arr2 Qc) (mask : arr2 bool)
    (h : arr3 complex) :
  fill_offdiagonal nc re im mask h
  = for_each (column_major nc) (cell_body re im mask) (h, 0).
Proof.
  unfold fill_offdiagonal, column_major. rewrite for_each_flat_map.
  apply for_each_ext. intros j st _. rewrite for_each_map. reflexivity.
Qed.

Lemma column_major_In (nc i j : nat) :
  In (i, j) (column_major nc) <-> i < nc /\ j < nc.
Proof.
  unfold column_major, range. rewrite in_flat_map. split.
  - intros (j0 & Hj & Hi). apply in_map_iff in Hi as (i0 & E & Hi).
    injection E as <- <-. apply in_seq in Hj, Hi. lia.
  - intros (Hi & Hj). exists j. split; [apply in_seq; lia |].
    apply in_map_iff. exists i. split; [reflexivity | apply in_seq; lia].
Qed.



Section Scan.

Variables (re im : arr2 Qc) (mask : arr2 bool) (nw : nat).
Hypothesis Hre : nrows re = nw.
Hypothesis Him : nrows im = nw.

Lemma fill_cell_false (h : arr3 complex) (n i j : nat) :
  i < nrows mask -> j < ncols mask -> at2 mask i j = false ->
  fill_cell re im mask j i (h, n) = Ok (h, n).
Proof using Type.
  clear Hre Him. intros Hi Hj Hm. unfold fill_cell, item2.
  destruct (Nat.ltb_spec i (nrows mask)); [| lia].
  destruct (Nat.ltb_spec j (ncols mask)); [| lia].
  cbn [andb bind]. rewrite Hm. reflexivity.
Qed.

Lemma fill_cell_true (h : arr3 complex) (n i j : nat) :
  i < nrows mask -> j < ncols mask -> at2 mask i j = true ->
  i < dim0 h -> j < dim1 h -> dim2 h = nw ->
  n < ncols re -> n < ncols im ->
  exists h',
    fill_cell re im mask j i (h, n) = Ok (h', n + 1) /\
    dim0 h' = dim0 h /\ dim1 h' = dim1 h /\ dim2 h' = nw /\
    (forall m, m < nw ->
       at3 h' i j m = Cadd (at3 h i j m) (mkC (at2 re m n) (at2 im m n))) /\
    (forall a b m, (a, b) <> (i, j) -> at3 h' a b m = at3 h a b m).
Proof.
  intros Hi Hj Hm Hi0 Hj1 Hd2 Hnre Hnim.
  unfold fill_cell, item2, fibre, col.
  destruct (Nat.ltb_spec i (nrows mask)); [| lia].
  destruct (Nat.ltb_spec j (ncols mask)); [| lia].
  cbn [andb bind]. rewrite Hm.
  destruct (Nat.ltb_spec i (dim0 h)); [| lia].
  destruct (Nat.ltb_spec j (dim1 h)); [| lia].
  destruct (Nat.ltb_spec n (ncols re)); [| lia].
  destruct (Nat.ltb_spec n (ncols im)); [| lia].
  cbn [andb bind]. unfold zip1. cbn [map1 len at1].
  rewrite Hre, Him, bcast_same. cbn [bind].
  unfold iadd, fits. cbn [len at1]. rewrite Hd2, Nat.eqb_refl. cbn [orb bind].
  unfold set_fibre. cbn [len at1].
  destruct (Nat.ltb_spec i (dim0 h)); [| lia].
  destruct (Nat.ltb_spec j (dim1 h)); [| lia].
  cbn [andb]. unfold fits. cbn [len]. rewrite Hd2, Nat.eqb_refl. cbn [orb bind].
  eexists. split; [reflexivity |]. cbn [dim0 dim1 dim2 at3].
  repeat split; auto.
  - intros m Hmw. rewrite !Nat.eqb_refl. cbn [andb].
    rewrite !(bidx_lt nw m) by assumption. rewrite plus_times_j. reflexivity.
  - intros a b m Hab.
    destruct (Nat.eqb_spec a i) as [->|]; [| reflexivity].
    destruct (Nat.eqb_spec b j) as [->|]; [congruence | reflexivity].
Qed.



End Scan.

(** ** The mask read from the log *)

Section Mask.

Variable p : string.



End Mask.

Section MaskLookup.

Variable shell : filesystem -> nat -> string -> proc.


(** The pipeline on a log without the phrase, or without a log: it writes
    nothing, and its status is still 0, the status of [tail]. *)
Lemma cmd_unmarked (fs : filesystem) (norb : nat) (outfile : string) :
  plain_name outfile = true ->
  (forall c, fs outfile = Some c ->
     existsb (contains search_phrase) (text_of c) = false) ->
  cmd shell fs norb outfile = Proc 0 [].
Proof.
  intros Hplain H. unfold cmd. rewrite Hplain. unfold pipe, grep_A.
  destruct (fs outfile) as [c|] eqn:E.
  - rewrite (H c eq_refl). cbn [stdout]. unfold head. cbn [stdout].
    rewrite firstn_nil. reflexivity.
  - cbn [stdout]. unfold head. cbn [stdout]. rewrite firstn_nil. reflexivity.
Qed.

Lemma read_mask_shape (fs : filesystem) (norb : nat) (spinpol : bool)
    (outfile : string) (mask : arr2 bool) :
  read_mask shell fs norb spinpol outfile = Ok mask ->
  let nc := if spinpol then 2 * norb else norb in
  nrows mask = nc /\ ncols mask = nc.
Proof.
  unfold read_mask. intros E. apply bind_ok in E as (m & Em & E).
  injection E as <-.
  assert (Hm : nrows m = 2 * norb /\ ncols m = 2 * norb).
  { unfold try_except in Em.
    destruct (bind (check_output (cmd shell fs norb outfile)) _) as [m'|e] eqn:E'.
    - injection Em as ->.
      apply bind_ok in E' as (out & _ & E').
      apply bind_ok in E' as (ints & _ & E').
      unfold reshape in E'.
      destruct (List.length ints =? 2 * norb * (2 * norb)); [| discriminate].
      injection E' as <-. split; reflexivity.
    - destruct (is_CalledProcessError e); discriminate. }
  destruct Hm as (Hr & Hc).
  destruct spinpol; cbn [negb slice_block map2 nrows ncols]; rewrite ?Hr, ?Hc;
    split; lia.
Qed.


(** The mask of a log without the phrase, for at least one orbital: the
    empty output cannot be given the shape, and the error is not the one
    the handler waits for. *)
Lemma read_mask_unmarked (fs : filesystem) (norb : nat) (spinpol : bool)
    (outfile : string) :
  plain_name outfile = true ->
  (forall c, fs outfile = Some c ->
     existsb (contains search_phrase) (text_of c) = false) ->
  0 < norb ->
  read_mask shell fs norb spinpol outfile = Raise ValueError.
Proof.
  intros Hplain H Hn. unfold read_mask.
  rewrite (cmd_unmarked fs norb outfile Hplain H).
  unfold check_output. cbn [status stdout Nat.eqb bind split flat_map int_array].
  unfold reshape. cbn [List.length].
  destruct (Nat.eqb_spec 0 (2 * norb * (2 * norb))) as [E|_]; [nia |].
  reflexivity.
Qed.

End MaskLookup.

(** ** The off-diagonal functions of [hyb] *)

Section HybOffDiagonal.

Variable eV : Qc.
Variable shell : filesystem -> nat -> string -> proc.

(** Lines 56 and 57 on a table of two dimensions: the mesh column is
    dropped and the data are scaled. *)
Lemma read_offdiagonal_valid (fs : filesystem) (file_off : string)
    (x : arr2 Qc) :
  loadtxt fs (Some file_off) = Ok (Nd2 x) -> 1 <= ncols x ->
  exists d,
    read_offdiagonal eV fs file_off = Ok d /\
    nrows d = nrows x /\ ncols d = ncols x - 1 /\
    (forall m k, at2 d m k = (eV * at2 x m (1 + k))%Qc).
Proof.
  intros L Hc. unfold read_offdiagonal. rewrite L.
  cbn [bind nd_cols_from nd_2d]. eexists. split; [reflexivity |].
  unfold slice_cols_from, slice_cols. cbn [map2 nrows ncols at2].
  rewrite Nat.min_id, (Nat.min_l 1) by lia. repeat split.
Qed.

Lemma true_cells_In (mask : arr2 bool) (nc i j : nat) :
  In (i, j) (true_cells mask nc) <-> (i < nc /\ j < nc) /\ at2 mask i j = true.
Proof.
  unfold true_cells. rewrite filter_In, column_major_In. reflexivity.
Qed.


End HybOffDiagonal.

(** ** The columns used by the fill *)

Section Columns.

Variables (mask : arr2 bool) (nc : nat).
Hypothesis Mr : nrows mask = nc.
Hypothesis Mc : ncols mask = nc.


(** A scan that meets more true cells than a table has columns ends in
    [IndexError] at the first cell without a column. *)
Lemma scan_short (nw : nat) (re im : arr2 Qc) (cs : list (nat * nat)) :
  nrows re = nw -> nrows im = nw ->
  (forall c, In c cs -> fst c < nc /\ snd c < nc) ->
  forall h n,
    dim0 h = nc -> dim1 h = nc -> dim2 h = nw ->
    n <= ncols re -> n <= ncols im ->
    ncols re < n + List.length (filter (mask_at mask) cs) \/
    ncols im < n + List.length (filter (mask_at mask) cs) ->
    for_each cs (cell_body re im mask) (h, n) = Raise IndexError.
Proof.
  intros Hre Him. induction cs as [|[i j] cs IH];
    intros Hin h n D0 D1 D2 Nre Nim Hshort.
  - cbn [filter List.length] in Hshort. lia.
  - destruct (Hin (i, j)) as (Hi & Hj); [left; reflexivity |].
    cbn [fst snd] in Hi, Hj.
    assert (Hin' : forall c, In c cs -> fst c < nc /\ snd c < nc)
      by (intros c Hc; apply Hin; right; assumption).
    cbn [filter for_each] in Hshort |- *.
    change (mask_at mask (i, j)) with (at2 mask i j) in Hshort.
    unfold cell_body at 1. cbn [fst snd].
    destruct (at2 mask i j) eqn:Hm.
    + cbn [List.length] in Hshort.
      destruct (le_lt_dec (ncols re) n) as [Hr|Hr];
        [| destruct (le_lt_dec (ncols im) n) as [Hi'|Hi']].
      * unfold fill_cell, item2, fibre, col. rewrite Mr, Mc, D0, D1.
        destruct (Nat.ltb_spec i nc); [| lia].
        destruct (Nat.ltb_spec j nc); [| lia].
        cbn [andb bind]. rewrite Hm. cbn [bind].
        destruct (Nat.ltb_spec n (ncols re)); [lia | reflexivity].
      * unfold fill_cell, item2, fibre, col. rewrite Mr, Mc, D0, D1.
        destruct (Nat.ltb_spec i nc); [| lia].
        destruct (Nat.ltb_spec j nc); [| lia].
        cbn [andb bind]. rewrite Hm. cbn [bind].
        destruct (Nat.ltb_spec n (ncols re)); [| lia]. cbn [bind].
        destruct (Nat.ltb_spec n (ncols im)); [lia | reflexivity].
      * destruct (fill_cell_true re im mask nw Hre Him h n i j)
          as (h1 & E1 & E0 & E1' & E2 & _); try lia; try assumption.
        rewrite E1. cbn [bind]. apply IH; auto; lia.
    + rewrite (fill_cell_false re im mask h n i j) by (try lia; assumption).
      cbn [bind]. apply IH; auto.
Qed.


End Columns.

(** ** Which calls end in [sys.exit] *)

Lemma quiet_bind {A B} (c : result A) (k : A -> result B) :
  quiet c -> (forall a, quiet (k a)) -> quiet (bind c k).
Proof.
  intros Hc Hk msg. destruct c as [a|e]; cbn [bind].
  - apply Hk.
  - intros E. injection E as ->. apply (Hc msg). reflexivity.
Qed.

Lemma quiet_for_each {I S} (l : list I) (body : I -> S -> result S) :
  (forall i s, quiet (body i s)) -> forall s, quiet (for_each l body s).
Proof.
  intros Hb. induction l as [|i l IH]; intros s; cbn [for_each].
  - discriminate.
  - apply quiet_bind; auto.
Qed.

(** Case analysis on every test of a computation made of tests only. *)
Ltac quiet_cases :=
  intros ?;
  repeat match goal with
         | |- context [match ?x with _ => _ end] => destruct x
         end;
  discriminate.

Lemma quiet_loadtxt (fs : filesystem) (f : option string) :
  quiet (loadtxt fs f).
Proof. unfold loadtxt. quiet_cases. Qed.

Lemma quiet_nd_col (x : ndarray) (n : nat) : quiet (nd_col x n).
Proof. unfold nd_col, col. quiet_cases. Qed.

Lemma quiet_nd_cols (x : ndarray) (lo hi : nat) : quiet (nd_cols x lo hi).
Proof. unfold nd_cols, nd_2d. destruct x; cbn [bind]; discriminate. Qed.

Lemma quiet_nd_cols_from (x : ndarray) (lo : nat) : quiet (nd_cols_from x lo).
Proof. unfold nd_cols_from, nd_2d. destruct x; cbn [bind]; discriminate. Qed.

Lemma quiet_zip2 {A B C} (f : A -> B -> C) (a : arr2 A) (b : arr2 B) :
  quiet (zip2 f a b).
Proof. unfold zip2. quiet_cases. Qed.

Lemma quiet_set_fibre {A} (h : arr3 A) (i j : nat) (v : arr1 A) :
  quiet (set_fibre h i j v).
Proof. unfold set_fibre. quiet_cases. Qed.

Lemma quiet_row {A} (a : arr2 A) (i : nat) : quiet (row a i).
Proof. unfold row. quiet_cases. Qed.

Lemma quiet_int_array (toks : list string) : quiet (int_array toks).
Proof.
  induction toks as [|t ts IH]; cbn [int_array]; [discriminate |].
  apply quiet_bind.
  - unfold to_int. quiet_cases.
  - intros z. apply quiet_bind; [exact IH | discriminate].
Qed.

Section Quiet.

Variable eV : Qc.
Variable shell : filesystem -> nat -> string -> proc.

Lemma quiet_read_diagonal (fs : filesystem) (file_re file_im : string)
    (nc : nat) : quiet (read_diagonal eV fs file_re file_im nc).
Proof.
  unfold read_diagonal.
  repeat (apply quiet_bind;
          [first [apply quiet_loadtxt | apply quiet_nd_col
                 | apply quiet_nd_cols | apply quiet_zip2] | intros ?]).
  discriminate.
Qed.

Lemma quiet_read_offdiagonal (fs : filesystem) (file_off : string) :
  quiet (read_offdiagonal eV fs file_off).
Proof.
  unfold read_offdiagonal.
  apply quiet_bind; [apply quiet_loadtxt | intros x].
  apply quiet_bind; [apply quiet_nd_cols_from | discriminate].
Qed.

Lemma quiet_read_mask (fs : filesystem) (norb : nat) (spinpol : bool)
    (outfile : string) : quiet (read_mask shell fs norb spinpol outfile).
Proof.
  unfold read_mask. apply quiet_bind; [| discriminate].
  unfold try_except.
  assert (Q : quiet (string <- check_output (cmd shell fs norb outfile) ;;
                     ints <- int_array (split string) ;;
                     reshape ints (2 * norb) (2 * norb))).
  { apply quiet_bind; [unfold check_output; quiet_cases | intros out].
    apply quiet_bind; [apply quiet_int_array | intros ints].
    unfold reshape. quiet_cases. }
  intros msg. destruct (bind (check_output _) _) as [m|e] eqn:E.
  - discriminate.
  - destruct e as [m0| | | | | | |]; cbn [is_CalledProcessError];
      unfold sys_error; try discriminate.
    exfalso. apply (Q m0). reflexivity.
Qed.

Lemma quiet_fill_diagonal (nc : nat) (hd : arr2 complex) (h : arr3 complex) :
  quiet (fill_diagonal nc hd h).
Proof.
  unfold fill_diagonal. apply quiet_for_each. intros i s.
  apply quiet_bind; [apply quiet_row | intros d; apply quiet_set_fibre].
Qed.

Lemma quiet_fill_offdiagonal (nc : nat) (re im : arr2 Qc) (mask : arr2 bool)
    (h : arr3 complex) : quiet (fill_offdiagonal nc re im mask h).
Proof.
  unfold fill_offdiagonal. apply quiet_for_each. intros j st.
  apply quiet_for_each. intros i [h0 n]. unfold fill_cell.
  apply quiet_bind; [unfold item2; quiet_cases | intros b].
  destruct b; [| discriminate].
  apply quiet_bind; [unfold fibre; quiet_cases | intros t].
  apply quiet_bind; [unfold col; quiet_cases | intros r].
  apply quiet_bind; [unfold col; quiet_cases | intros c].
  apply quiet_bind; [unfold zip1; quiet_cases | intros v].
  apply quiet_bind; [unfold iadd; quiet_cases | intros t'].
  apply quiet_bind; [apply quiet_set_fibre | discriminate].
Qed.

(** With none or all three of the optional inputs, [hyb] never ends in
    [sys.exit]. *)
Lemma quiet_hyb (fs : filesystem) (file_re file_im : string) (norb : nat)
    (spinpol : bool) (o1 o2 o3 : option string) (full : bool) :
  supplied o1 o2 o3 = 0 \/ supplied o1 o2 o3 = 3 ->
  quiet (hyb eV shell fs file_re file_im norb spinpol o1 o2 o3 full).
Proof.
  intros Hs. unfold hyb.
  apply quiet_bind; [apply quiet_read_diagonal | intros [w hd]].
  destruct o1, o2, o3; cbn in Hs; try lia.
  - apply quiet_bind; [apply quiet_read_offdiagonal | intros re].
    apply quiet_bind; [apply quiet_read_offdiagonal | intros im].
    apply quiet_bind; [apply quiet_read_mask | intros mask].
    apply quiet_bind; [apply quiet_fill_diagonal | intros h].
    apply quiet_bind; [apply quiet_fill_offdiagonal | intros [h' n]].
    discriminate.
  - destruct full; [| discriminate].
    apply quiet_bind; [apply quiet_fill_diagonal | discriminate].
Qed.

(** C5, as the code has it.  With exactly one or two of the three optional
    inputs, [hyb] does not return: once the diagonal functions are read it
    ends with the error of wrong input parameters, and when that read
    fails it ends with the error of the read, which comes first.  With
    none or all three of them, no call ends with the error of wrong input
    parameters. *)
Theorem hyb_wrong_input_parameters (fs : filesystem)
    (file_re file_im : string) (norb : nat) (spinpol : bool)
    (o1 o2 o3 : option string) (full : bool) :
  let nc := if spinpol then 2 * norb else norb in
  (supplied o1 o2 o3 = 1 \/ supplied o1 o2 o3 = 2 ->
   ~ returns (hyb eV shell fs file_re file_im norb spinpol o1 o2 o3 full) /\
   (returns (read_diagonal eV fs file_re file_im nc) ->
    hyb eV shell fs file_re file_im norb spinpol o1 o2 o3 full = wrong_input) /\
   (forall e, read_diagonal eV fs file_re file_im nc = Raise e ->
    hyb eV shell fs file_re file_im norb spinpol o1 o2 o3 full = Raise e)) /\
  (supplied o1 o2 o3 = 0 \/ supplied o1 o2 o3 = 3 ->
   hyb eV shell fs file_re file_im norb spinpol o1 o2 o3 full <> wrong_input).
Proof.
  intros nc. split.
  - intros Hs.
    assert (E : hyb eV shell fs file_re file_im norb spinpol o1 o2 o3 full
                = bind (read_diagonal eV fs file_re file_im nc)
                       (fun _ => wrong_input)).
    { unfold hyb. fold nc.
      destruct (read_diagonal eV fs file_re file_im nc) as [[w hd]|e];
        cbn [bind]; [| reflexivity].
      destruct o1, o2, o3; cbn in Hs; try lia; reflexivity. }
    rewrite E. split; [| split].
    + intros (a & Ha). apply bind_ok in Ha as (x & _ & Hx). discriminate.
    + intros (a & Ha). rewrite Ha. reflexivity.
    + intros e He. rewrite He. reflexivity.
  - intros Hs. apply quiet_hyb. exact Hs.
Qed.

End Quiet.

(** ** A log without the mask *)

Section MaskAbsent.

Variable eV : Qc.
Variable shell : filesystem -> nat -> string -> proc.

(** C7, evaluated on the code.  The name of the log is a plain word, the
    log has no line with the phrase (or there is no log) and there is at
    least one orbital: the search writes
    nothing with status 0, the empty output cannot be reshaped, and the
    call ends in [ValueError] once the tables are read.  It never ends
    with the message that the mask is absent, and it does not return. *)
Theorem hyb_mask_absent (fs : filesystem) (file_re file_im : string)
    (norb : nat) (spinpol : bool) (file_re_off file_im_off outfile : string)
    (full : bool) :
  plain_name outfile = true ->
  (forall c, fs outfile = Some c ->
     existsb (contains search_phrase) (text_of c) = false) ->
  0 < norb ->
  let nc := if spinpol then 2 * norb else norb in
  let call := hyb eV shell fs file_re file_im norb spinpol
                (Some file_re_off) (Some file_im_off) (Some outfile) full in
  check_output (cmd shell fs norb outfile) = Ok [] /\
  read_mask shell fs norb spinpol outfile = Raise ValueError /\
  ~ returns call /\
  call <> mask_absent /\
  (returns (read_diagonal eV fs file_re file_im nc) ->
   returns (read_offdiagonal eV fs file_re_off) ->
   returns (read_offdiagonal eV fs file_im_off) ->
   call = Raise ValueError).
Proof.
  intros Hplain Habs Hn nc call.
  pose proof (read_mask_unmarked shell fs norb spinpol outfile Hplain Habs Hn)
    as Em.
  split; [rewrite (cmd_unmarked shell fs norb outfile Hplain Habs); reflexivity |].
  split; [exact Em |].
  assert (Hcall : forall w hd re im,
            read_diagonal eV fs file_re file_im nc = Ok (w, hd) ->
            read_offdiagonal eV fs file_re_off = Ok re ->
            read_offdiagonal eV fs file_im_off = Ok im ->
            call = Raise ValueError).
  { intros w hd re im E1 E2 E3. subst call. unfold hyb. fold nc.
    rewrite E1. cbn [bind]. rewrite E2, E3. cbn [bind]. rewrite Em.
    reflexivity. }
  split; [| split].
  - intros (a & Ha). subst call. unfold hyb in Ha. fold nc in Ha.
    apply bind_ok in Ha as ([w hd] & E1 & Ha).
    apply bind_ok in Ha as (re & E2 & Ha).
    apply bind_ok in Ha as (im & E3 & Ha).
    rewrite Em in Ha. discriminate.
  - apply quiet_hyb. right. reflexivity.
  - intros ([w hd] & E1) (re & E2) (im & E3). eapply Hcall; eassumption.
Qed.

End MaskAbsent.

(** The handler of the missing mask, had it been entered: [sys.error] is
    not an attribute of [sys]. *)
Remark mask_handler_raises :
  try_except (A := arr2 Z) (Raise CalledProcessError) is_CalledProcessError
    (sys_error "Mask in out-file is absent.") = Raise AttributeError.
Proof. reflexivity. Qed.

(** ** The reader of self-energies *)

Section SelfEnergy.

Variable eV : Qc.
Variable shell : filesystem -> nat -> string -> proc.

(** No call of [self_energy] returns: what does not fail before reaches
    the exit of line 135. *)
Lemma self_energy_never_returns (fs : filesystem) (file_re file_im : string)
    (spinpol : bool) (o1 o2 : option string) :
  ~ returns (self_energy eV fs file_re file_im spinpol o1 o2).
Proof.
  intros (a & Ha). unfold self_energy in Ha.
  repeat (apply bind_ok in Ha as (? & ? & Ha); cbv zeta in Ha).
  match goal with H : sys_exit _ = Ok _ |- _ => discriminate H end.
Qed.

(** The tables of a call whose four files hold tables of two dimensions,
    the two diagonal tables having the same shape: line 135 is reached. *)
Lemma self_energy_reaches_exit (fs : filesystem) (file_re file_im : string)
    (spinpol : bool) (file_re_off file_im_off : string)
    (re im re_off im_off : arr2 Qc) :
  loadtxt fs (Some file_re) = Ok (Nd2 re) ->
  loadtxt fs (Some file_im) = Ok (Nd2 im) ->
  nrows im = nrows re -> ncols im = ncols re -> 1 <= ncols re ->
  loadtxt fs (Some file_re_off) = Ok (Nd2 re_off) ->
  loadtxt fs (Some file_im_off) = Ok (Nd2 im_off) ->
  self_energy eV fs file_re file_im spinpol
    (Some file_re_off) (Some file_im_off) = not_complete.
Proof.
  intros Lre Lim Hr Hc Hc1 Lro Lio. unfold self_energy.
  rewrite Lre, Lim. cbn [bind nd_col nd_cols_from nd_2d].
  unfold col. destruct (Nat.ltb_spec 0 (ncols re)); [| lia]. cbn [bind].
  unfold zip2, slice_cols_from, slice_cols. cbn [map2 nrows ncols at2].
  rewrite Hr, Hc, !bcast_same. cbn [bind]. rewrite Lro. cbn [bind].
  rewrite Lio. cbn [bind transpose map2 nrows ncols at2].
  set (nc := Nat.min (ncols re) (ncols re) - Nat.min 4 (ncols re)).
  match goal with |- context [row ?t] => set (sd := t) end.
  destruct (for_range_total
    (fun i (sig : arr3 complex) => d <- row sd i ;; set_fibre sig i i d)
    (fun _ sig => dim0 sig = nc /\ dim1 sig = nc /\ dim2 sig = nrows re)
    nc (zeros3 C0 nc nc (nrows re))) as (sig & Es & _).
  - intros i sig Hi (D0 & D1 & D2). unfold row, set_fibre, fits.
    change (nrows sd) with nc. change (ncols sd) with (nrows re).
    assert (Hlt : (i <? nc) = true) by (apply Nat.ltb_lt; exact Hi).
    rewrite Hlt. cbn [bind len].
    rewrite D0, D1, D2, Hlt, Nat.eqb_refl. cbn [andb orb].
    eexists. split; [reflexivity |]. repeat split.
  - repeat split.
  - rewrite Es. reflexivity.
Qed.

(** C1, evaluated on the code.  Without the off-diagonal files
    [self_energy] does not return the mesh and the diagonal table: it
    passes the absent file name to [np.loadtxt].  On the tables of the
    hybridization scenario the call ends in [ValueError]. *)
Theorem self_energy_diagonal_only :
  (forall (fs : filesystem) (file_re file_im : string) (spinpol : bool)
          (file_im_off : option string),
     ~ returns (self_energy eV fs file_re file_im spinpol None file_im_off)) /\
  self_energy eV Examples.fs0 "hyb-re.dat" "hyb-im.dat" false None None
    = Raise ValueError.
Proof.
  split.
  - intros fs file_re file_im spinpol o. apply self_energy_never_returns.
  - reflexivity.
Qed.

(** C2, as the code has it.  No call of [self_energy] returns, so no full
    matrix is ever produced.  With both off-diagonal files supplied, the
    four files holding tables of two dimensions and the two diagonal
    tables having the same shape, the call ends with the error of the
    unfinished implementation. *)
Theorem self_energy_offdiagonal_not_complete (fs : filesystem)
    (file_re file_im : string) (spinpol : bool)
    (file_re_off file_im_off : string) (re im re_off im_off : arr2 Qc) :
  loadtxt fs (Some file_re) = Ok (Nd2 re) ->
  loadtxt fs (Some file_im) = Ok (Nd2 im) ->
  nrows im = nrows re -> ncols im = ncols re ->
  loadtxt fs (Some file_re_off) = Ok (Nd2 re_off) ->
  loadtxt fs (Some file_im_off) = Ok (Nd2 im_off) ->
  self_energy eV fs file_re file_im spinpol
    (Some file_re_off) (Some file_im_off) = not_complete /\
  (forall fs' file_re' file_im' spinpol' o1 o2,
     ~ returns (self_energy eV fs' file_re' file_im' spinpol' o1 o2)).
Proof.
  intros Lre Lim Hr Hc Lro Lio. split.
  - apply (self_energy_reaches_exit fs file_re file_im spinpol
             file_re_off file_im_off re im re_off im_off); auto.
    apply loadtxt_two_dims in Lre. lia.
  - intros. apply self_energy_never_returns.
Qed.

End SelfEnergy.

(** ** The readers run on concrete files *)

Module Runs.

Import Examples.

Local Open Scope string_scope.

(** On a table of one row the diagonal-only call ends in [IndexError]:
    [np.loadtxt] returns it with one dimension. *)
Example hyb_one_row (eV : Qc) :
  hyb eV no_shell (fun _ => Some (Numeric [hd [] hyb_rows])) "re" "im" 2 false
      None None None false = Raise IndexError.
Proof. reflexivity. Qed.

(** C2, the claim as written fails: the off-diagonal files are supplied
    and one of them cannot be opened; the call ends in [OSError], not in
    the error of the unfinished implementation. *)
Lemma self_energy_offdiagonal_counterexample :
  self_energy (qc 1) fs0 "hyb-re.dat" "hyb-im.dat" false
    (Some "absent.dat") (Some "off-im.dat") = Raise OSError /\
  self_energy (qc 1) fs0 "hyb-re.dat" "hyb-im.dat" false
    (Some "absent.dat") (Some "off-im.dat") <> not_complete.
Proof. split; [reflexivity | discriminate]. Qed.

(** C5, the claim as written fails: one of the three optional inputs is
    supplied and the file of the real parts cannot be opened; the call
    ends in [OSError], raised before the arguments are looked at. *)
Lemma hyb_wrong_input_counterexample :
  hyb (qc 1) no_shell fs0 "absent.dat" "hyb-im.dat" 2 false
      (Some "off-re.dat") None None false = Raise OSError /\
  hyb (qc 1) no_shell fs0 "absent.dat" "hyb-im.dat" 2 false
      (Some "off-re.dat") None None false <> wrong_input.
Proof. split; [reflexivity | discriminate]. Qed.

(** C6, the claim as written fails: two orbitals without spin
    polarization and a table of one row with its six columns, [4 + nc];
    [np.loadtxt] returns it with one dimension and the call ends in
    [IndexError]. *)
Lemma hyb_diagonal_table_counterexample :
  List.length (hd [] hyb_rows) = 4 + 2 /\
  hyb (qc 1) no_shell (fun _ => Some (Numeric [hd [] hyb_rows])) "re" "im"
      2 false None None None false = Raise IndexError.
Proof. split; reflexivity. Qed.

(** C8, the claim as written fails: one orbital with spin polarization and
    a density table of one row with its nine columns, [7 + nc]; the call
    ends in [IndexError]. *)
Lemma pdos_columns_counterexample :
  List.length (hd [] pdos_rows) = 7 + 2 /\
  pdos (qc 1) (fun _ => Some (Numeric [hd [] pdos_rows])) "pdos" 1 true
  = Raise IndexError.
Proof. split; reflexivity. Qed.

Lemma self_energy_offdiagonal_not_complete_witness :
  self_energy (qc 1) fs0 "hyb-re.dat" "hyb-im.dat" false
    (Some "off-re.dat") (Some "off-im.dat") = not_complete.
Proof.
  apply (self_energy_offdiagonal_not_complete (qc 1) fs0
           "hyb-re.dat" "hyb-im.dat" false "off-re.dat" "off-im.dat"
           hyb_table hyb_table off_table off_table);
    reflexivity.
Defined.




Lemma hyb_wrong_input_parameters_witness :
  hyb (qc 1) no_shell fs0 "hyb-re.dat" "hyb-im.dat" 2 false
      (Some "off-re.dat") None None false = wrong_input.
Proof.
  destruct (hyb_wrong_input_parameters (qc 1) no_shell fs0
              "hyb-re.dat" "hyb-im.dat" 2 false
              (Some "off-re.dat") None None false) as (H & _).
  destruct H as (_ & H & _); [left; reflexivity |].
  apply H. eexists. reflexivity.
Defined.

Lemma hyb_diagonal_table_witness :
  returns (hyb (qc 2) no_shell fs0 "hyb-re.dat" "hyb-im.dat" 2 false
             None None None false).
Proof.
  destruct (proj1 (hyb_diagonal_table (qc 2) no_shell) fs0 "hyb-re.dat" "hyb-im.dat"
              2 false hyb_table hyb_table)
    as (w & hd & E & _);
    [ reflexivity | reflexivity | cbn; lia | cbn; lia | reflexivity | ].
  exists (w, Diagonal hd). exact E.
Defined.

Lemma hyb_mask_absent_witness :
  hyb (qc 1) no_shell fs0 "hyb-re.dat" "hyb-im.dat" 1 true
      (Some "off-re.dat") (Some "off-im.dat") (Some "out-nomask") false
  = Raise ValueError.
Proof.
  apply (hyb_mask_absent (qc 1) no_shell fs0 "hyb-re.dat" "hyb-im.dat" 1 true
           "off-re.dat" "off-im.dat" "out-nomask" false).
  - reflexivity.
  - intros c E. injection E as <-. reflexivity.
  - lia.
  - eexists. reflexivity.
  - eexists. reflexivity.
  - eexists. reflexivity.
Defined.

Lemma pdos_columns_witness :
  returns (pdos (qc 2) fs0 "pdos.dat" 1 true).
Proof.
  destruct (pdos_columns (qc 2) fs0 "pdos.dat" 1 true pdos_table)
    as (w & p & E & _); [ reflexivity | cbn; lia | ].
  exists (w, p). exact E.
Defined.

Lemma hyb_full_matrix_diagonal_witness :
  returns (hyb (qc 2) no_shell fs0 "hyb-re.dat" "hyb-im.dat" 2 false
             None None None true).
Proof.
  destruct (hyb_full_matrix_diagonal (qc 2) no_shell fs0 "hyb-re.dat" "hyb-im.dat"
              2 false hyb_table hyb_table)
    as (w & hd & h & _ & E & _);
    [ reflexivity | reflexivity | cbn; lia | cbn; lia | reflexivity | ].
  exists (w, Full h). exact E.
Defined.


End Runs.

(** ** Further properties of the readers: shapes, edges and errors *)

Section Invariants.

Context {I S : Type}.

(** What every turn of a loop keeps holds after the loop, when it returns. *)
Lemma for_each_keeps (P : S -> Prop) (body : I -> S -> result S)
    (l : list I) :
  (forall i s s', P s -> body i s = Ok s' -> P s') ->
  forall s s', P s -> for_each l body s = Ok s' -> P s'.
Proof.
  intros Hstep. induction l as [|i l IH]; intros s s' Hs E; cbn [for_each] in E.
  - injection E as <-. exact Hs.
  - apply bind_ok in E as (s1 & E1 & E2).
    apply (IH s1 s'); [apply (Hstep i s s1); assumption | exact E2].
Qed.

(** A loop that raises in its first turn raises. *)
Lemma for_each_raise_first (body : I -> S -> result S) (i : I) (l : list I)
    (s : S) (e : exn) :
  body i s = Raise e -> for_each (i :: l) body s = Raise e.
Proof. intros E. cbn [for_each]. rewrite E. reflexivity. Qed.

End Invariants.

Lemma set_fibre_dims {A} (h h' : arr3 A) (i j : nat) (v : arr1 A) :
  set_fibre h i j v = Ok h' ->
  dim0 h' = dim0 h /\ dim1 h' = dim1 h /\ dim2 h' = dim2 h.
Proof.
  unfold set_fibre.
  destruct ((i <? dim0 h) && (j <? dim1 h)); [| discriminate].
  destruct (fits v (dim2 h)); [| discriminate].
  intros E. injection E as <-. repeat split.
Qed.

Lemma fill_diagonal_dims (nc : nat) (hd : arr2 complex) (h h' : arr3 complex) :
  fill_diagonal nc hd h = Ok h' ->
  dim0 h' = dim0 h /\ dim1 h' = dim1 h /\ dim2 h' = dim2 h.
Proof.
  unfold fill_diagonal.
  apply (for_each_keeps
           (fun x => dim0 x = dim0 h /\ dim1 x = dim1 h /\ dim2 x = dim2 h)).
  - intros i s s' (D0 & D1 & D2) E.
    apply bind_ok in E as (d & _ & E). apply set_fibre_dims in E.
    destruct E as (E0 & E1 & E2). repeat split; congruence.
  - repeat split.
Qed.

Lemma fill_cell_dims (re im : arr2 Qc) (mask : arr2 bool) (j i : nat)
    (h h' : arr3 complex) (n n' : nat) :
  fill_cell re im mask j i (h, n) = Ok (h', n') ->
  dim0 h' = dim0 h /\ dim1 h' = dim1 h /\ dim2 h' = dim2 h.
Proof.
  unfold fill_cell. intros E. apply bind_ok in E as (b & _ & E).
  destruct b.
  - apply bind_ok in E as (t & _ & E). apply bind_ok in E as (r & _ & E).
    apply bind_ok in E as (c & _ & E). apply bind_ok in E as (v & _ & E).
    apply bind_ok in E as (t' & _ & E). apply bind_ok in E as (h1 & E1 & E).
    injection E as <- _. apply set_fibre_dims in E1. exact E1.
  - injection E as <- _. repeat split.
Qed.

Lemma fill_offdiagonal_dims (nc : nat) (re im : arr2 Qc) (mask : arr2 bool)
    (h h' : arr3 complex) (n : nat) :
  fill_offdiagonal nc re im mask h = Ok (h', n) ->
  dim0 h' = dim0 h /\ dim1 h' = dim1 h /\ dim2 h' = dim2 h.
Proof.
  rewrite fill_offdiagonal_scan.
  apply (for_each_keeps
           (fun st : arr3 complex * nat =>
              dim0 (fst st) = dim0 h /\ dim1 (fst st) = dim1 h /\
              dim2 (fst st) = dim2 h) (cell_body re im mask)
           (column_major nc)
           ltac:(intros [i j] [h0 n0] [h1 n1] (D0 & D1 & D2) E;
                 apply fill_cell_dims in E; cbn [fst] in *;
                 destruct E as (E0 & E1 & E2); repeat split; congruence)
           (h, 0) (h', n)).
  repeat split.
Qed.

(** A scan over cells whose mask entries are all false leaves the matrix
    and the counter as they are, whatever the tables hold. *)
Lemma scan_all_false (re im : arr2 Qc) (mask : arr2 bool)
    (cs : list (nat * nat)) (h : arr3 complex) (n : nat) :
  (forall c, In c cs ->
     fst c < nrows mask /\ snd c < ncols mask /\ mask_at mask c = false) ->
  for_each cs (cell_body re im mask) (h, n) = Ok (h, n).
Proof.
  induction cs as [|[i j] cs IH]; intros H; cbn [for_each]; [reflexivity |].
  destruct (H (i, j)) as (Hi & Hj & Hm); [left; reflexivity |].
  unfold cell_body at 1. cbn [fst snd] in *.
  rewrite (fill_cell_false re im mask h n i j Hi Hj Hm). cbn [bind].
  apply IH. intros c Hc. apply H. right. exact Hc.
Qed.

Section Shapes.

Variable eV : Qc.
Variable shell : filesystem -> nat -> string -> proc.

(** X1.  Whenever [hyb] returns all functions, with or without the
    off-diagonal inputs, the matrix has [nc] rows, [nc] columns and one
    value per point of the returned mesh.  The diagonal table alone is
    returned only by the call without optional inputs and without the
    flag. *)
Theorem hyb_result_shape (fs : filesystem) (file_re file_im : string)
    (norb : nat) (spinpol : bool) (o1 o2 o3 : option string) (full : bool)
    (w : arr1 Qc) (f : functions) :
  hyb eV shell fs file_re file_im norb spinpol o1 o2 o3 full = Ok (w, f) ->
  match f with
  | Full h =>
      dim0 h = spin_orbitals norb spinpol /\
      dim1 h = spin_orbitals norb spinpol /\ dim2 h = len w
  | Diagonal _ => supplied o1 o2 o3 = 0 /\ full = false
  end.
Proof.
  unfold hyb, spin_orbitals. intros E.
  apply bind_ok in E as ([w0 hd] & _ & E).
  destruct o1 as [f1|], o2 as [f2|], o3 as [f3|]; try discriminate.
  - apply bind_ok in E as (re & _ & E). apply bind_ok in E as (im & _ & E).
    apply bind_ok in E as (mask & _ & E). apply bind_ok in E as (h0 & E0 & E).
    apply bind_ok in E as ([h1 n] & E1 & E). injection E as <- <-.
    apply fill_diagonal_dims in E0. apply fill_offdiagonal_dims in E1.
    cbn [zeros3 dim0 dim1 dim2] in E0.
    destruct E0 as (A0 & A1 & A2), E1 as (B0 & B1 & B2).
    repeat split; congruence.
  - destruct full.
    + apply bind_ok in E as (h0 & E0 & E). injection E as <- <-.
      apply fill_diagonal_dims in E0. cbn [zeros3 dim0 dim1 dim2] in E0.
      exact E0.
    + injection E as <- <-. split; reflexivity.
Qed.

(** X2.  A mask without a true entry among its [nc] by [nc] cells: when
    the off-diagonal tables are read and the mask is found, the call with
    the off-diagonal inputs gives what the call without them gives under
    the flag, error for error and matrix for matrix; no column of the
    off-diagonal tables is looked at. *)
Theorem hyb_empty_mask (fs : filesystem) (file_re file_im : string)
    (norb : nat) (spinpol : bool) (file_re_off file_im_off outfile : string)
    (full : bool) (mask : arr2 bool) :
  returns (read_offdiagonal eV fs file_re_off) ->
  returns (read_offdiagonal eV fs file_im_off) ->
  read_mask shell fs norb spinpol outfile = Ok mask ->
  true_cells mask (spin_orbitals norb spinpol) = [] ->
  hyb eV shell fs file_re file_im norb spinpol
      (Some file_re_off) (Some file_im_off) (Some outfile) full
  = hyb eV shell fs file_re file_im norb spinpol None None None true.
Proof.
  intros (re & Ere) (im & Eim) Em Hnone. unfold hyb, spin_orbitals in *.
  set (nc := if spinpol then 2 * norb else norb) in *.
  destruct (read_diagonal eV fs file_re file_im nc) as [[w hd]|e];
    cbn [bind]; [| reflexivity].
  rewrite Ere, Eim. cbn [bind]. rewrite Em. cbn [bind].
  destruct (fill_diagonal nc hd (zeros3 C0 nc nc (len w))) as [h|e];
    cbn [bind]; [| reflexivity].
  rewrite fill_offdiagonal_scan, scan_all_false; [reflexivity |].
  intros [i j] Hin. apply column_major_In in Hin as (Hi & Hj).
  destruct (read_mask_shape shell fs norb spinpol outfile mask Em) as (Mr & Mc).
  fold nc in Mr, Mc. cbn [fst snd]. rewrite Mr, Mc.
  split; [exact Hi |]. split; [exact Hj |].
  destruct (mask_at mask (i, j)) eqn:Hm; [| reflexivity].
  assert (Hin : In (i, j) (true_cells mask nc)).
  { apply true_cells_In. split; [split; assumption | exact Hm]. }
  rewrite Hnone in Hin. destruct Hin.
Qed.

End Shapes.

(** A file of at most one row, or of one column, comes back from
    [np.loadtxt] with fewer than two dimensions. *)
Lemma loadtxt_squeezed (fs : filesystem) (f : string)
    (rows : list (list Qc)) :
  fs f = Some (Numeric rows) ->
  List.length rows <= 1 \/ Forall (fun r => List.length r = 1) rows ->
  exists x, loadtxt fs (Some f) = Ok x /\ two_dims x = false.
Proof.
  intros Hfs Hshape. unfold loadtxt. rewrite Hfs.
  set (rows' := filter _ rows).
  assert (Hlen : List.length rows' <= List.length rows)
    by apply filter_length_le.
  assert (Hall : Forall (fun r => List.length r = 1) rows ->
                 Forall (fun r => List.length r = 1) rows').
  { intros H. apply Forall_forall. intros r Hr. apply filter_In in Hr.
    rewrite Forall_forall in H. apply H. tauto. }
  assert (Hrect : rectangular rows' = true).
  { destruct Hshape as [H1|H1].
    - destruct rows' as [|r [|r' rs]]; [reflexivity | | cbn in Hlen; lia].
      unfold rectangular, width. cbn. rewrite Nat.eqb_refl. reflexivity.
    - specialize (Hall H1). unfold rectangular. apply forallb_forall.
      intros r Hr. rewrite Forall_forall in Hall. rewrite (Hall r Hr).
      unfold width. destruct rows' as [|r0 rs]; [destruct Hr |].
      cbn [hd]. rewrite (Hall r0) by (left; reflexivity). reflexivity. }
  rewrite Hrect. eexists. split; [reflexivity |].
  unfold squeeze.
  destruct (Nat.eqb_spec (List.length rows') 0); [reflexivity |].
  destruct (Nat.eqb_spec (List.length rows') 1), (Nat.eqb_spec (width rows') 1);
    cbn [andb]; try reflexivity.
  exfalso. destruct Hshape as [H1|H1]; [lia |].
  specialize (Hall H1). destruct rows' as [|r0 rs]; [cbn in *; lia |].
  rewrite Forall_forall in Hall. unfold width in *. cbn [hd] in *.
  rewrite (Hall r0) in *; [congruence | left; reflexivity].
Qed.

Section BadTables.

Variable eV : Qc.
Variable shell : filesystem -> nat -> string -> proc.

(** X3.  A first file of at most one row of numbers, or of a single
    column: [np.loadtxt] returns it with fewer than two dimensions, and
    each of the three readers ends in [IndexError] at its first subscript
    (for [hyb] and [self_energy], once the second file is loaded),
    whatever the other arguments. *)
Theorem readers_need_two_rows (fs : filesystem) (file : string)
    (rows : list (list Qc)) (norb : nat) (spinpol : bool) :
  fs file = Some (Numeric rows) ->
  List.length rows <= 1 \/ Forall (fun r => List.length r = 1) rows ->
  pdos eV fs file norb spinpol = Raise IndexError /\
  (forall file_im o1 o2 o3 full,
     returns (loadtxt fs (Some file_im)) ->
     hyb eV shell fs file file_im norb spinpol o1 o2 o3 full = Raise IndexError) /\
  (forall file_im o1 o2,
     returns (loadtxt fs (Some file_im)) ->
     self_energy eV fs file file_im spinpol o1 o2 = Raise IndexError).
Proof.
  intros Hfs Hshape.
  destruct (loadtxt_squeezed fs file rows Hfs Hshape) as (x & Lx & Hx).
  assert (Hcol : nd_col x 0 = Raise IndexError)
    by (destruct x; [reflexivity | reflexivity | discriminate]).
  split; [| split].
  - unfold pdos. rewrite Lx. cbn [bind]. rewrite Hcol. reflexivity.
  - intros file_im o1 o2 o3 full (y & Ly). unfold hyb, read_diagonal.
    rewrite Lx, Ly. cbn [bind]. rewrite Hcol. reflexivity.
  - intros file_im o1 o2 (y & Ly). unfold self_energy.
    rewrite Lx, Ly. cbn [bind]. rewrite Hcol. reflexivity.
Qed.

Lemma bcast_differ (m n : nat) :
  2 <= m -> 2 <= n -> m <> n -> bcast m n = None.
Proof.
  intros Hm Hn Hne. unfold bcast.
  destruct (Nat.eqb_spec m 1); [lia |].
  destruct (Nat.eqb_spec n 1); [lia |].
  destruct (Nat.eqb_spec m n); [contradiction | reflexivity].
Qed.

(** X4.  Real and imaginary tables of two dimensions with different
    numbers of rows: [hyb] and [self_energy] end in [ValueError] when they
    add the two parts, whatever the other arguments. *)
Theorem diagonal_rows_mismatch (fs : filesystem) (file_re file_im : string)
    (norb : nat) (spinpol : bool) (re im : arr2 Qc) :
  loadtxt fs (Some file_re) = Ok (Nd2 re) ->
  loadtxt fs (Some file_im) = Ok (Nd2 im) ->
  nrows re <> nrows im ->
  (forall o1 o2 o3 full,
     hyb eV shell fs file_re file_im norb spinpol o1 o2 o3 full = Raise ValueError) /\
  (forall o1 o2,
     self_energy eV fs file_re file_im spinpol o1 o2 = Raise ValueError).
Proof.
  intros Lre Lim Hne.
  destruct (loadtxt_two_dims fs _ re Lre) as (Rre & Cre).
  destruct (loadtxt_two_dims fs _ im Lim) as (Rim & Cim).
  pose proof (bcast_differ (nrows re) (nrows im) Rre Rim Hne) as Hb.
  split.
  - intros o1 o2 o3 full. unfold hyb, read_diagonal.
    rewrite Lre, Lim. cbn [bind nd_col nd_cols nd_2d]. unfold col.
    destruct (Nat.ltb_spec 0 (ncols re)); [| lia]. cbn [bind].
    unfold zip2. cbn [map2 transpose nrows ncols slice_cols]. rewrite Hb.
    match goal with |- context [bcast ?a ?b] => destruct (bcast a b) end;
      reflexivity.
  - intros o1 o2. unfold self_energy.
    rewrite Lre, Lim. cbn [bind nd_col nd_cols_from nd_2d]. unfold col.
    destruct (Nat.ltb_spec 0 (ncols re)); [| lia]. cbn [bind].
    unfold zip2, slice_cols_from. cbn [map2 nrows ncols slice_cols]. rewrite Hb.
    reflexivity.
Qed.

(** X5.  Valid diagonal tables of the same shape and an off-diagonal file
    left out: [self_energy] ends in [ValueError], raised by [np.loadtxt] on
    the absent name; so it does when only the imaginary off-diagonal file
    is left out and the real one holds a table. *)
Theorem self_energy_missing_offdiagonal (fs : filesystem)
    (file_re file_im : string) (spinpol : bool) (re im : arr2 Qc) :
  loadtxt fs (Some file_re) = Ok (Nd2 re) ->
  loadtxt fs (Some file_im) = Ok (Nd2 im) ->
  nrows im = nrows re -> ncols im = ncols re ->
  (forall o2,
     self_energy eV fs file_re file_im spinpol None o2 = Raise ValueError) /\
  (forall file_re_off x,
     loadtxt fs (Some file_re_off) = Ok (Nd2 x) ->
     self_energy eV fs file_re file_im spinpol (Some file_re_off) None
     = Raise ValueError).
Proof.
  intros Lre Lim Hr Hc.
  destruct (loadtxt_two_dims fs _ re Lre) as (Rre & Cre).
  split.
  - intros o2. unfold self_energy.
    rewrite Lre, Lim. cbn [bind nd_col nd_cols_from nd_2d]. unfold col.
    destruct (Nat.ltb_spec 0 (ncols re)); [| lia]. cbn [bind].
    unfold zip2, slice_cols_from, slice_cols. cbn [map2 nrows ncols at2].
    rewrite Hr, Hc, !bcast_same. reflexivity.
  - intros file_re_off x Lx. unfold self_energy.
    rewrite Lre, Lim. cbn [bind nd_col nd_cols_from nd_2d]. unfold col.
    destruct (Nat.ltb_spec 0 (ncols re)); [| lia]. cbn [bind].
    unfold zip2, slice_cols_from, slice_cols. cbn [map2 nrows ncols at2].
    rewrite Hr, Hc, !bcast_same. cbn [bind]. rewrite Lx. reflexivity.
Qed.

End BadTables.

Section NarrowTables.

Variable eV : Qc.
Variable shell : filesystem -> nat -> string -> proc.



(** X7.  A density table of two dimensions with fewer than [k + nc]
    columns, for at least one spin-orbital: [pdos] ends in [IndexError];
    it does not return the columns that are there. *)
Theorem pdos_narrow_table (fs : filesystem) (filename : string) (norb : nat)
    (spinpol : bool) (tmp : arr2 Qc) :
  loadtxt fs (Some filename) = Ok (Nd2 tmp) ->
  0 < spin_orbitals norb spinpol ->
  ncols tmp < pdos_offset spinpol + spin_orbitals norb spinpol ->
  pdos eV fs filename norb spinpol = Raise IndexError.
Proof.
  unfold spin_orbitals, pdos_offset. intros L Hnc Hnarrow.
  set (nc := if spinpol then 2 * norb else norb) in *.
  set (k := if spinpol then 7 else 2) in *.
  destruct (loadtxt_two_dims fs _ tmp L) as (Rt & Ct).
  unfold pdos. fold nc k. rewrite L. cbn [bind nd_col]. unfold col at 1.
  destruct (Nat.ltb_spec 0 (ncols tmp)); [| lia]. cbn [bind map1 len].
  set (r := ncols tmp - k).
  assert (Hr : r < nc) by (subst r; lia).
  unfold range.
  replace (seq 0 nc) with (seq 0 r ++ seq (0 + r) (nc - r))
    by (rewrite <- seq_app; f_equal; lia).
  rewrite for_each_app.
  destruct (for_seq_total
    (fun i (p : arr2 Qc) =>
       c <- col tmp (k + i) ;; set_row p i (map1 (fun x => (x / eV)%Qc) c))
    (fun _ p => nrows p = nc /\ ncols p = nrows tmp)
    r 0 (zeros2 0%Qc nc (nrows tmp))) as (p & Ep & _).
  - intros i p Hi (D0 & D1). unfold col, set_row, fits.
    destruct (Nat.ltb_spec (k + i) (ncols tmp)); [| lia]. cbn [bind map1 len].
    rewrite D0, D1, Nat.eqb_refl.
    destruct (Nat.ltb_spec i nc); [| lia]. cbn [orb].
    eexists. split; [reflexivity |]. repeat split.
  - repeat split.
  - rewrite Ep. cbn [bind Nat.add].
    destruct (nc - r) as [|j] eqn:Ej; [lia |]. cbn [seq].
    rewrite (for_each_raise_first _ r _ p IndexError); [reflexivity |].
    unfold col. destruct (Nat.ltb_spec (k + r) (ncols tmp)); [lia | reflexivity].
Qed.

End NarrowTables.

Section BadOffDiagonal.

Variables (mask : arr2 bool) (nc nw : nat).
Hypothesis Mr : nrows mask = nc.
Hypothesis Mc : ncols mask = nc.


End BadOffDiagonal.

Section HybBadOffDiagonal.

Variable eV : Qc.
Variable shell : filesystem -> nat -> string -> proc.

(** The call with the off-diagonal inputs, up to the scan: valid diagonal
    tables, off-diagonal tables of two dimensions and a mask that is
    found. *)
Lemma hyb_reaches_scan (fs : filesystem) (file_re file_im : string)
    (norb : nat) (spinpol : bool) (file_re_off file_im_off outfile : string)
    (full : bool) (re im re_off im_off : arr2 Qc) (mask : arr2 bool) :
  let nc := spin_orbitals norb spinpol in
  loadtxt fs (Some file_re) = Ok (Nd2 re) ->
  loadtxt fs (Some file_im) = Ok (Nd2 im) ->
  4 + nc <= ncols re -> 4 + nc <= ncols im -> nrows im = nrows re ->
  loadtxt fs (Some file_re_off) = Ok (Nd2 re_off) ->
  loadtxt fs (Some file_im_off) = Ok (Nd2 im_off) ->
  read_mask shell fs norb spinpol outfile = Ok mask ->
  exists w h0 dre dim,
    hyb eV shell fs file_re file_im norb spinpol
        (Some file_re_off) (Some file_im_off) (Some outfile) full
    = ('(h, _) <- for_each (column_major nc) (cell_body dre dim mask) (h0, 0) ;;
       Ok (w, Full h)) /\
    dim0 h0 = nc /\ dim1 h0 = nc /\ dim2 h0 = nrows re /\
    nrows dre = nrows re_off /\ ncols dre = ncols re_off - 1 /\
    nrows dim = nrows im_off /\ ncols dim = ncols im_off - 1 /\
    len w = nrows re.
Proof.
  intros nc Lre Lim Cre Cim Hrows Lro Lio Hmask.
  unfold spin_orbitals in nc.
  destruct (read_diagonal_valid eV fs file_re file_im nc re im
              Lre Lim Cre Cim Hrows) as (w & hd & E & Hw & _ & Hr & Hc & _).
  destruct (fill_diagonal_zeros nc (len w) hd Hr) as (h0 & Eh & D0 & D1 & D2 & _);
    [congruence |].
  destruct (loadtxt_two_dims fs _ re_off Lro) as (_ & Cro).
  destruct (loadtxt_two_dims fs _ im_off Lio) as (_ & Cio).
  destruct (read_offdiagonal_valid eV fs file_re_off re_off Lro)
    as (dre & Ere & Rre & Wre & _); [lia |].
  destruct (read_offdiagonal_valid eV fs file_im_off im_off Lio)
    as (dim & Eim & Rim & Wim & _); [lia |].
  exists w, h0, dre, dim. unfold hyb. fold nc. rewrite E. cbn [bind].
  rewrite Ere, Eim. cbn [bind]. rewrite Hmask. cbn [bind].
  rewrite Eh. cbn [bind]. rewrite fill_offdiagonal_scan.
  repeat split; auto; congruence.
Qed.

(** X8.  Valid tables over one mesh and a mask with more true entries
    than one of the off-diagonal tables has data columns: [hyb] ends in
    [IndexError]; the entries that have a column are not returned. *)
Theorem hyb_too_few_columns (fs : filesystem) (file_re file_im : string)
    (norb : nat) (spinpol : bool) (file_re_off file_im_off outfile : string)
    (full : bool) (re im re_off im_off : arr2 Qc) (mask : arr2 bool) :
  let nc := spin_orbitals norb spinpol in
  loadtxt fs (Some file_re) = Ok (Nd2 re) ->
  loadtxt fs (Some file_im) = Ok (Nd2 im) ->
  4 + nc <= ncols re -> 4 + nc <= ncols im -> nrows im = nrows re ->
  loadtxt fs (Some file_re_off) = Ok (Nd2 re_off) ->
  loadtxt fs (Some file_im_off) = Ok (Nd2 im_off) ->
  nrows re_off = nrows re -> nrows im_off = nrows re ->
  read_mask shell fs norb spinpol outfile = Ok mask ->
  ncols re_off < 1 + List.length (true_cells mask nc) \/
  ncols im_off < 1 + List.length (true_cells mask nc) ->
  hyb eV shell fs file_re file_im norb spinpol
      (Some file_re_off) (Some file_im_off) (Some outfile) full
  = Raise IndexError.
Proof.
  intros nc Lre Lim Cre Cim Hrows Lro Lio Hro Hio Hmask Hfew.
  destruct (hyb_reaches_scan fs file_re file_im norb spinpol
              file_re_off file_im_off outfile full re im re_off im_off mask
              Lre Lim Cre Cim Hrows Lro Lio Hmask)
    as (w & h0 & dre & dim & E & D0 & D1 & D2 & Rre & Wre & Rim & Wim & _).
  fold nc in E, D0, D1. rewrite E.
  destruct (read_mask_shape shell fs norb spinpol outfile mask Hmask) as (Mr & Mc).
  destruct (loadtxt_two_dims fs _ re_off Lro) as (_ & Cro).
  destruct (loadtxt_two_dims fs _ im_off Lio) as (_ & Cio).
  rewrite (scan_short mask nc Mr Mc (nrows re) dre dim (column_major nc));
    try reflexivity; try congruence; try lia.
  - intros [i j] Hin. apply column_major_In in Hin. exact Hin.
  - fold (true_cells mask nc). lia.
Qed.


End HybBadOffDiagonal.

(** ** Logs that do not hold a mask of the expected size *)










Section LogErrors.

Variable shell : filesystem -> nat -> string -> proc.


End LogErrors.

Section BadLogs.

Variable eV : Qc.
Variable shell : filesystem -> nat -> string -> proc.


End BadLogs.

Section LogContents.

Variable shell : filesystem -> nat -> string -> proc.



End LogContents.

Section Mesh.

Variable eV : Qc.
Variable shell : filesystem -> nat -> string -> proc.

(** X13.  The mesh that [hyb] returns is read from the file of the real
    parts alone: two calls that load the same table from it return the
    same mesh, whatever the file of the imaginary parts, the number of
    orbitals, the spin polarization and the optional inputs; no call
    compares the mesh with the first column of another file. *)
Theorem hyb_mesh_from_real_file (fs fs' : filesystem) (file_re : string)
    (file_im file_im' : string) (norb norb' : nat) (spinpol spinpol' : bool)
    (o1 o2 o3 o1' o2' o3' : option string) (full full' : bool)
    (w w' : arr1 Qc) (f f' : functions) :
  loadtxt fs (Some file_re) = loadtxt fs' (Some file_re) ->
  hyb eV shell fs file_re file_im norb spinpol o1 o2 o3 full = Ok (w, f) ->
  hyb eV shell fs' file_re file_im' norb' spinpol' o1' o2' o3' full' = Ok (w', f') ->
  w = w' /\
  exists re, loadtxt fs (Some file_re) = Ok (Nd2 re) /\
             len w = nrows re /\
             forall m, at1 w m = (eV * at2 re m 0)%Qc.
Proof.
  intros Hsame E E'.
  assert (Mesh : forall fs0 file_im0 norb0 spinpol0 p1 p2 p3 full0 w0 f0,
            hyb eV shell fs0 file_re file_im0 norb0 spinpol0 p1 p2 p3 full0
              = Ok (w0, f0) ->
            exists re, loadtxt fs0 (Some file_re) = Ok (Nd2 re) /\
                       w0 = map1 (Qcmult eV)
                              (Arr1 (nrows re) (fun m => at2 re m 0))).
  { intros fs0 file_im0 norb0 spinpol0 p1 p2 p3 full0 w0 f0 H.
    unfold hyb in H. apply bind_ok in H as ([w1 hd] & Hd & H).
    assert (w0 = w1).
    { destruct p1, p2, p3; try discriminate.
      - apply bind_ok in H as (a1 & _ & H). apply bind_ok in H as (a2 & _ & H).
        apply bind_ok in H as (a3 & _ & H). apply bind_ok in H as (a4 & _ & H).
        apply bind_ok in H as ([a5 a6] & _ & H).
        injection H as <- _. reflexivity.
      - destruct full0.
        + apply bind_ok in H as (? & _ & H). injection H as <- _. reflexivity.
        + injection H as <- _. reflexivity. }
    subst w1. unfold read_diagonal in Hd.
    apply bind_ok in Hd as (x & Lx & Hd). apply bind_ok in Hd as (y & _ & Hd).
    apply bind_ok in Hd as (c & Hc & Hd).
    apply bind_ok in Hd as (b1 & _ & Hd). apply bind_ok in Hd as (b2 & _ & Hd).
    apply bind_ok in Hd as (b3 & _ & Hd). injection Hd as <- _.
    destruct x as [q|v|re]; try discriminate. exists re.
    split; [exact Lx |]. cbn [nd_col] in Hc. unfold col in Hc.
    destruct (0 <? ncols re); [| discriminate]. injection Hc as <-.
    reflexivity. }
  destruct (Mesh _ _ _ _ _ _ _ _ _ _ E) as (re & L & ->).
  destruct (Mesh _ _ _ _ _ _ _ _ _ _ E') as (re' & L' & ->).
  rewrite Hsame, L' in L. injection L as <-.
  split; [reflexivity |]. exists re'. rewrite Hsame.
  split; [exact L' |]. split; reflexivity.
Qed.

(** X14.  No orbital at all: [pdos] returns the mesh and a table without
    rows for every file that holds a table of two dimensions, however few
    columns it has. *)
Theorem pdos_no_orbitals (fs : filesystem) (filename : string)
    (spinpol : bool) (tmp : arr2 Qc) :
  loadtxt fs (Some filename) = Ok (Nd2 tmp) ->
  exists w p,
    pdos eV fs filename 0 spinpol = Ok (w, p) /\
    len w = nrows tmp /\ nrows p = 0 /\ ncols p = nrows tmp.
Proof.
  intros L. destruct (loadtxt_two_dims fs _ tmp L) as (_ & Ct).
  unfold pdos. rewrite L. cbn [bind nd_col]. unfold col.
  destruct (Nat.ltb_spec 0 (ncols tmp)); [| lia].
  destruct spinpol; cbn [bind Nat.mul range seq for_each];
    eexists _, _; (split; [reflexivity |]); repeat split.
Qed.

End Mesh.

(** ** The edge cases run on concrete files *)

Module EdgeRuns.

Import Examples EdgeFiles.

Local Open Scope string_scope.

Lemma hyb_result_shape_witness :
  exists w h,
    hyb (qc 1) no_shell fs0 "hyb-re.dat" "hyb-im.dat" 2 false None None None true
      = Ok (w, Full h) /\
    dim0 h = 2 /\ dim1 h = 2 /\ dim2 h = len w.
Proof.
  assert (E : exists w h,
            hyb (qc 1) no_shell fs0 "hyb-re.dat" "hyb-im.dat" 2 false None None None true
              = Ok (w, Full h)) by (eexists _, _; reflexivity).
  destruct E as (w & h & E). exists w, h. split; [exact E |].
  exact (hyb_result_shape (qc 1) no_shell fs0 "hyb-re.dat" "hyb-im.dat" 2 false
           None None None true w (Full h) E).
Defined.

Lemma hyb_empty_mask_witness :
  hyb (qc 1) no_shell fs1 "hyb-re.dat" "hyb-im.dat" 1 true
      (Some "off-re.dat") (Some "off-three.dat") (Some "out-zero") false
  = hyb (qc 1) no_shell fs1 "hyb-re.dat" "hyb-im.dat" 1 true None None None true.
Proof.
  apply (hyb_empty_mask (qc 1) no_shell fs1 "hyb-re.dat" "hyb-im.dat" 1 true
           "off-re.dat" "off-three.dat" "out-zero" false
           (mask_of [0; 0; 0; 0]%Z)).
  - eexists. reflexivity.
  - eexists. reflexivity.
  - reflexivity.
  - reflexivity.
Defined.

Lemma readers_need_two_rows_witness :
  pdos (qc 1) fs1 "one-row.dat" 2 false = Raise IndexError.
Proof.
  apply (readers_need_two_rows (qc 1) no_shell fs1 "one-row.dat"
           [hd [] hyb_rows] 2 false).
  - reflexivity.
  - left. cbn [List.length]. lia.
Defined.

Lemma diagonal_rows_mismatch_witness :
  hyb (qc 1) no_shell fs1 "hyb-re.dat" "three-rows.dat" 2 false None None None false
  = Raise ValueError.
Proof.
  apply (diagonal_rows_mismatch (qc 1) no_shell fs1 "hyb-re.dat" "three-rows.dat"
           2 false hyb_table three_rows_table).
  - reflexivity.
  - reflexivity.
  - cbn [nrows hyb_table three_rows_table]. lia.
Defined.

Lemma self_energy_missing_offdiagonal_witness :
  self_energy (qc 1) fs0 "hyb-re.dat" "hyb-im.dat" false None None
  = Raise ValueError.
Proof.
  exact (proj1 (self_energy_missing_offdiagonal (qc 1) fs0
                  "hyb-re.dat" "hyb-im.dat" false hyb_table hyb_table
                  eq_refl eq_refl eq_refl eq_refl) None).
Defined.


Lemma pdos_narrow_table_witness :
  pdos (qc 1) fs0 "pdos.dat" 2 true = Raise IndexError.
Proof.
  apply (pdos_narrow_table (qc 1) fs0 "pdos.dat" 2 true pdos_table);
    [ reflexivity | cbn; lia | cbn; lia ].
Defined.

Lemma hyb_too_few_columns_witness :
  hyb (qc 1) no_shell fs1 "hyb-re.dat" "hyb-im.dat" 1 true
      (Some "off-one.dat") (Some "off-one.dat") (Some "out-two") false
  = Raise IndexError.
Proof.
  apply (hyb_too_few_columns (qc 1) no_shell fs1 "hyb-re.dat" "hyb-im.dat" 1 true
           "off-one.dat" "off-one.dat" "out-two" false
           hyb_table hyb_table off_one_table off_one_table
           (mask_of [0; 1; 1; 0]%Z));
    [ reflexivity | reflexivity | cbn; lia | cbn; lia | reflexivity
    | reflexivity | reflexivity | reflexivity | reflexivity | reflexivity
    | left; vm_compute; lia ].
Defined.





Lemma hyb_mesh_from_real_file_witness :
  exists w w' f f',
    hyb (qc 1) no_shell fs0 "hyb-re.dat" "hyb-im.dat" 2 false None None None false
      = Ok (w, f) /\
    hyb (qc 1) no_shell fs1 "hyb-re.dat" "hyb-re.dat" 1 true None None None true
      = Ok (w', f') /\
    w = w'.
Proof.
  assert (E : exists w f,
            hyb (qc 1) no_shell fs0 "hyb-re.dat" "hyb-im.dat" 2 false None None None false
              = Ok (w, f)) by (eexists _, _; reflexivity).
  assert (E' : exists w f,
            hyb (qc 1) no_shell fs1 "hyb-re.dat" "hyb-re.dat" 1 true None None None true
              = Ok (w, f)) by (eexists _, _; reflexivity).
  destruct E as (w & f & E), E' as (w' & f' & E').
  exists w, w', f, f'. split; [exact E |]. split; [exact E' |].
  apply (hyb_mesh_from_real_file (qc 1) no_shell fs0 fs1 "hyb-re.dat"
           "hyb-im.dat" "hyb-re.dat" 2 1 false true
           None None None None None None false true w w' f f' eq_refl E E').
Defined.

Lemma pdos_no_orbitals_witness :
  returns (pdos (qc 1) fs0 "pdos.dat" 0 true).
Proof.
  destruct (pdos_no_orbitals (qc 1) fs0 "pdos.dat" true pdos_table)
    as (w & p & E & _); [reflexivity |].
  exists (w, p). exact E.
Defined.

End EdgeRuns.
